(** * Graphene-JS decorators: metadata bookkeeping over a wrapped schema library

    A shallow embedding of [src/types/index.ts] (the decorators [Field],
    [InputField], [ObjectType], [InterfaceType], [InputObjectType],
    [EnumType] and the helper [Argument]) and of
    [src/definitions/structures.ts] ([List], [NonNull]).

    The wrapped schema library (the [graphql] package) is external: its type
    objects, predicates and constructors are operations of the class
    [GraphQL].  The JavaScript host (values, classes and their properties)
    is the class [Host].  The repository's [reflection] module is not among
    the sources at hand: its registry is modelled from the specification,
    and the helpers that the specification does not describe are operations
    of the class [Reflection]. *)

From stdpp Require Import base option list strings gmap fin_maps.

Set Default Proof Using "Type".
#[local] Set Warnings "-register-all".

(** ** Carriers *)

(** A class is a constructor function, a heap object with an identity. *)
Definition Ctor : Type := positive.

(** The types the embedding does not look into. *)
Class Carriers : Type := {
  (** any JavaScript run-time value *)
  Value : Type;
  (** a type object of the wrapped library, [GraphQLType] *)
  GraphQLType : Type;
  (** what [mountFields] hands to the object and interface constructors *)
  MountedFields : Type;
  (** what [mountInputFields] hands to the input object constructor *)
  MountedInputFields : Type;
  (** [GraphQLSchema] and the library's [ExecutionResult] promise *)
  GraphQLSchema : Type;
  ExecutionResult : Type
}.

(** ** Errors and the registry monad *)

(** A thrown [Error], by its message. *)
Definition Result (A : Type) : Type := string + A.

Definition throw {A : Type} (msg : string) : Result A := inl msg.

#[export] Instance Result_ret : MRet Result := fun _ a => inr a.
#[export] Instance Result_bind : MBind Result := fun _ _ f m =>
  match m with
  | inl e => inl e
  | inr a => f a
  end.

(** JavaScript's [a || b] on an optional string: [undefined] and the empty
    string are falsy. *)
Definition or_string (a : option string) (b : string) : string :=
  match a with
  | Some s => if decide (s = EmptyString) then b else s
  | None => b
  end.

Definition or_opt_string (a b : option string) : option string :=
  match a with
  | Some s => if decide (s = EmptyString) then b else Some s
  | None => b
  end.

Section Data.
Context `{Carriers}.

(** ** Values given to the decorators

    What the source types as [any]: a type designator, an interface entry,
    an argument of a field.  [AUndefined] is [undefined]; [AClass] a class;
    [AType] a type object of the library (as [ID] or [List(String)] are);
    [AArray] an array literal, as in [[Character]]; [ARecord] an
    [ArgumentType] record; [AValue] any other value (the [String], [Number]
    and [Boolean] constructors among them), neither [undefined] nor [null]. *)
Inductive Any : Type :=
| AUndefined
| AClass (c : Ctor)
| AType (t : GraphQLType)
| AArray (l : list Any)
| ARecord (type : Any) (description : option string) (defaultValue : option Value)
| AValue (v : Value).

(** Helper function that eases the creation of arguments:
    [Argument(String, "The description", "value")] becomes
    [{type: String, description: "The description", defaultValue: "value"}]. *)
Definition Argument (type : Any) (description : option string)
    (defaultValue : option Value) : Any :=
  ARecord type description defaultValue.

(** [arg.type], [arg.description] for an argument entry: only a record
    carries these properties (a class, an array or a library type used as a
    bare type has no [type] property); reading them off [undefined] is a
    [TypeError], raised where they are read ([mountArgument]). *)
Definition prop_type (arg : Any) : Any :=
  match arg with
  | ARecord type _ _ => type
  | _ => AUndefined
  end.

Definition prop_description (arg : Any) : option string :=
  match arg with
  | ARecord _ description _ => description
  | _ => None
  end.

(** [typeof x !== 'undefined'] *)
Definition is_defined (x : Any) : bool :=
  match x with
  | AUndefined => false
  | _ => true
  end.

(** [FieldConfig]: [args] keeps the enumeration order of the object's keys,
    which is the order of the [for (argKey in args)] loop. *)
Record FieldConfig : Type := {
  fc_args : option (list (string * Any));
  fc_description : option string;
  fc_deprecationReason : option string
}.

(** The default [config = {}]. *)
Definition FieldConfig_empty : FieldConfig :=
  {| fc_args := None; fc_description := None; fc_deprecationReason := None |}.

Record InputFieldConfig : Type := {
  ifc_defaultValue : option Value;
  ifc_description : option string;
  ifc_deprecationReason : option string
}.

(** ** Thunks

    [Field(type, config)(target, key)] stores the closure
    [() => { ... }]; a closure is the record of the variables it captured,
    and [runField] below is its body.  [target] is the prototype the
    property decorator received; it is named by its class,
    [target.constructor]. *)
Record FieldThunk : Type := {
  ft_type : Any;
  ft_config : FieldConfig;
  ft_target : Ctor;
  ft_key : string
}.

Record InputFieldThunk : Type := {
  ift_type : Any;
  ift_config : InputFieldConfig;
  ift_target : Ctor;
  ift_key : string
}.

Abbreviation UnmountedFieldMap := (gmap string FieldThunk).
Abbreviation UnmountedInputFieldMap := (gmap string InputFieldThunk).

(** ** The reflection registry *)

(** Modelled from the spec: the registry of the [reflection] module, which is
    not among the sources: "process-wide mapping from class to pending field
    thunks and from class to the already-mounted external type". *)
Record Registry : Type := {
  reg_types : gmap Ctor GraphQLType;
  reg_fields : gmap Ctor (gmap string FieldThunk);
  reg_inputFields : gmap Ctor (gmap string InputFieldThunk)
}.

Definition Registry_empty : Registry :=
  {| reg_types := ∅; reg_fields := ∅; reg_inputFields := ∅ |}.

(** Modelled from the spec: [getFields] of the [reflection] module: the
    pending field thunks of a class, keyed by name; empty when the target has
    none.  The object it returns is the one the registry holds, so a write
    to it is a write to the registry ([setFields]). *)
Definition getFields (r : Registry) (target : Any) : UnmountedFieldMap :=
  match target with
  | AClass c => default ∅ (reg_fields r !! c)
  | _ => ∅
  end.

Definition setFields (c : Ctor) (fields : UnmountedFieldMap) (r : Registry) : Registry :=
  {| reg_types := reg_types r;
     reg_fields := <[c := fields]> (reg_fields r);
     reg_inputFields := reg_inputFields r |}.

(** Modelled from the spec: [getInputFields] of the [reflection] module, the
    same for input fields. *)
Definition getInputFields (r : Registry) (target : Any) : UnmountedInputFieldMap :=
  match target with
  | AClass c => default ∅ (reg_inputFields r !! c)
  | _ => ∅
  end.

Definition setInputFields (c : Ctor) (fields : UnmountedInputFieldMap)
    (r : Registry) : Registry :=
  {| reg_types := reg_types r;
     reg_fields := reg_fields r;
     reg_inputFields := <[c := fields]> (reg_inputFields r) |}.

(** Modelled from the spec: [setGraphQLType] of the [reflection] module:
    the class is associated with its finalized external type. *)
Definition setGraphQLType (target : Ctor) (type : GraphQLType) (r : Registry) : Registry :=
  {| reg_types := <[target := type]> (reg_types r);
     reg_fields := reg_fields r;
     reg_inputFields := reg_inputFields r |}.

(** What a registry keeps when the pending fields of one class change. *)
Definition same_but_fields (c : Ctor) (r r' : Registry) : Prop :=
  reg_types r' = reg_types r ∧
  reg_inputFields r' = reg_inputFields r ∧
  ∀ a, a ≠ AClass c → getFields r' a = getFields r a.

Definition same_but_inputFields (c : Ctor) (r r' : Registry) : Prop :=
  reg_types r' = reg_types r ∧
  reg_fields r' = reg_fields r ∧
  ∀ a, a ≠ AClass c → getInputFields r' a = getInputFields r a.

(** The registry after one [setGraphQLType(target, type)], and nothing else:
    the class has its type, the other classes and the pending fields are as
    before. *)
Definition registered_once (target : Ctor) (type : GraphQLType) (r r' : Registry) : Prop :=
  r' = setGraphQLType target type r ∧
  reg_types r' !! target = Some type ∧
  (∀ c, c ≠ target → reg_types r' !! c = reg_types r !! c) ∧
  reg_fields r' = reg_fields r ∧
  reg_inputFields r' = reg_inputFields r.

(** A decorator runs against the registry and either throws or returns. *)
Definition M (A : Type) : Type := Registry → Result A * Registry.

Definition M_ret {A : Type} (a : A) : M A := fun r => (inr a, r).

Definition M_bind {A B : Type} (m : M A) (f : A → M B) : M B := fun r =>
  match m r with
  | (inl e, r') => (inl e, r')
  | (inr a, r') => f a r'
  end.

(** A helper that only reads the registry. *)
Definition reading {A : Type} (f : Registry → Result A) : M A := fun r => (f r, r).

(** A write to the registry. *)
Definition writing (f : Registry → Registry) : M unit := fun r => (inr tt, f r).

(** ** Configurations handed to the wrapped library *)

(** [GraphQLArgumentConfig]; an absent key is [None]. *)
Record GraphQLArgumentConfig : Type := {
  arg_type : GraphQLType;
  arg_description : option string;
  arg_defaultValue : option Value
}.

Abbreviation ArgumentMap := (gmap string GraphQLArgumentConfig).

(** [GraphQLFieldResolver]: [(root, args, context, info) => result]. *)
Definition GraphQLFieldResolver : Type := Value → Value → Value → Value → Value.

(** [GraphQLFieldConfig] *)
Record GraphQLFieldConfig : Type := {
  f_args : gmap string GraphQLArgumentConfig;
  f_type : GraphQLType;
  f_description : option string;
  f_deprecationReason : option string;
  f_resolve : GraphQLFieldResolver
}.

(** [GraphQLInputFieldConfig] as [InputField] fills it. *)
Record GraphQLInputFieldConfig : Type := {
  if_type : GraphQLType;
  if_description : option string;
  if_deprecationReason : option string;
  if_defaultValue : Value
}.

(** [GraphQLEnumValueConfig] *)
Record GraphQLEnumValueConfig : Type := {
  ev_value : Value;
  ev_description : option string;
  ev_deprecationReason : option string
}.

(** [GraphQLTypeResolver], which reads the registry when it is called. *)
Definition GraphQLTypeResolver : Type :=
  Registry → Value → Value → Value → Result GraphQLType.

Record GraphQLObjectTypeConfig : Type := {
  ot_name : string;
  ot_description : option string;
  ot_interfaces : list GraphQLType;
  ot_fields : MountedFields
}.

Record GraphQLInterfaceTypeConfig : Type := {
  it_name : string;
  it_description : option string;
  it_resolveType : GraphQLTypeResolver;
  it_fields : MountedFields
}.

Record GraphQLInputObjectTypeConfig : Type := {
  iot_name : string;
  iot_description : option string;
  iot_fields : MountedInputFields
}.

Record GraphQLEnumTypeConfig : Type := {
  et_name : string;
  et_description : option string;
  et_values : gmap string GraphQLEnumValueConfig
}.

Record GraphQLSchemaConfig : Type := {
  sc_query : GraphQLType;
  sc_mutation : option GraphQLType
}.

End Data.

Abbreviation UnmountedFieldMap := (gmap string FieldThunk).
Abbreviation UnmountedInputFieldMap := (gmap string InputFieldThunk).
Abbreviation ArgumentMap := (gmap string GraphQLArgumentConfig).

#[export] Instance M_mret `{Carriers} : MRet M := @M_ret _.
#[export] Instance M_mbind `{Carriers} : MBind M := fun _ _ f m => M_bind m f.

(** ** The environment of the decorators *)

(** The JavaScript host: values, and the classes with their properties. *)
Class Host `{Carriers} : Type := {
  (** truthiness, as [||] tests it *)
  truthy : Value → bool;
  (** [typeof v === 'function'] *)
  is_function : Value → bool;
  (** [f.call(thisArg, ...args)] *)
  js_call : Value → Value → list Value → Value;
  (** [target.name] of a class *)
  class_name : Ctor → string;
  (** [Object.getOwnPropertyNames(_class)] *)
  getOwnPropertyNames : Ctor → list string;
  (** [target[name]] on a class: a static property *)
  static_get : Ctor → string → Value;
  (** [target[key]] on the prototype of a class *)
  proto_get : Ctor → string → Value;
  (** the string a template literal makes of a value *)
  String_of : Any → string;
  (** [name in {}]: whether an ordinary object inherits the name from
      [Object.prototype], as it does [toString] and [constructor] *)
  in_Object_prototype : string → bool;
  (** the message of the [TypeError] for reading a property of [undefined] *)
  TypeError_undefined : string → string;
  (** [class BaseClass {}] *)
  BaseClass : Ctor
}.

(** The wrapped library. *)
Class GraphQL `{Carriers} : Type := {
  isOutputType : GraphQLType → bool;
  isInputType : GraphQLType → bool;
  (** [t instanceof GraphQLInterfaceType] *)
  isInterfaceType : GraphQLType → bool;
  defaultFieldResolver : GraphQLFieldResolver;
  (** the constructors, which throw on a configuration they reject *)
  GraphQLList : GraphQLType → Result GraphQLType;
  GraphQLNonNull : GraphQLType → Result GraphQLType;
  GraphQLObjectType : GraphQLObjectTypeConfig → Result GraphQLType;
  GraphQLInterfaceType : GraphQLInterfaceTypeConfig → Result GraphQLType;
  GraphQLInputObjectType : GraphQLInputObjectTypeConfig → Result GraphQLType;
  GraphQLEnumType : GraphQLEnumTypeConfig → Result GraphQLType;
  new_GraphQLSchema : GraphQLSchemaConfig → Result GraphQLSchema;
  printSchema : GraphQLSchema → string;
  graphql : GraphQLSchema → string → ExecutionResult
}.

(** The helpers of the [reflection] module that the decorators call and the
    specification leaves open.  They read the registry and may throw; the
    descriptions and deprecation reasons are metadata that other decorators
    attach and that none of the decorators below writes. *)
Class Reflection `{Carriers} : Type := {
  getGraphQLType : Registry → Any → Result GraphQLType;
  (** [getDescription(target)] and [getDescription(target, key)] *)
  getDescription : Ctor → option string → option string;
  getDeprecationReason : Ctor → option string → option string;
  assertFields : Ctor → gmap string FieldThunk → Result unit;
  mountFields : Registry → gmap string FieldThunk → Result MountedFields;
  assertInputFields : Ctor → gmap string InputFieldThunk → Result unit;
  mountInputFields : Registry → gmap string InputFieldThunk → Result MountedInputFields
}.

Section Decorators.
Context `{Carriers} `{!Host} `{!GraphQL} `{!Reflection}.

(** [isInputType(arg)] on an arbitrary value: the library's predicate holds
    of its own type objects only. *)
Definition isInputType_any (arg : Any) : bool :=
  match arg with
  | AType t => isInputType t
  | _ => false
  end.

(** ** [Field] *)

(** The test that tells an argument record from a bare type. *)
Definition is_argument_record (arg : Any) : bool :=
  is_defined (prop_type arg) && negb (isInputType_any arg).

(** [Field argument ${argKey} expected to be Input type. Received: ${argType}.] *)
Definition argument_error (argKey : string) (argType : Any) : string :=
  "Field argument " +:+ argKey +:+ " expected to be Input type. Received: "
    +:+ String_of argType +:+ ".".

(** The [argType] and the [extra] description that the test selects. *)
Definition argument_argType (arg : Any) : Any :=
  if is_argument_record arg then prop_type arg else arg.

Definition argument_extra (arg : Any) : option string :=
  if is_argument_record arg then prop_description arg else None.

(** An argument entry whose [argType] resolves to an input type. *)
Definition argument_is_input (r : Registry) (entry : string * Any) : Prop :=
  entry.2 ≠ AUndefined ∧
  ∃ t, getGraphQLType r (argument_argType entry.2) = inr t ∧ isInputType t = true.

(** An argument entry whose [argType] resolves, and one whose [argType]
    resolves to a type that is not an input type. *)
Definition argument_resolves (r : Registry) (entry : string * Any) : Prop :=
  entry.2 ≠ AUndefined ∧
  ∃ t, getGraphQLType r (argument_argType entry.2) = inr t.

Definition argument_is_not_input (r : Registry) (entry : string * Any) : Prop :=
  ∃ t, getGraphQLType r (argument_argType entry.2) = inr t ∧ isInputType t = false.

(** One turn of the loop over [args]: the entry written to [fieldArgs[argKey]]. *)
Definition mountArgument (r : Registry) (argKey : string) (arg : Any)
    : Result GraphQLArgumentConfig :=
  match arg with
  | AUndefined => throw (TypeError_undefined "type")
  | _ =>
      let '(extra, argType) :=
        if is_argument_record arg
        then (prop_description arg, prop_type arg)
        else (None, arg) in
      newType ← getGraphQLType r argType;
      if negb (isInputType newType)
      then throw (argument_error argKey argType)
      else mret {| arg_type := newType; arg_description := extra;
                   arg_defaultValue := None |}
  end.

(** [for (argKey in args) { ... }] *)
Fixpoint mountArguments (r : Registry) (args : list (string * Any))
    (fieldArgs : gmap string GraphQLArgumentConfig)
    : Result (gmap string GraphQLArgumentConfig) :=
  match args with
  | [] => mret fieldArgs
  | (argKey, arg) :: rest =>
      cfg ← mountArgument r argKey arg;
      mountArguments r rest (<[argKey := cfg]> fieldArgs)
  end.

(** The resolver of a mounted field. *)
Definition fieldResolver (targetResolver : Value) : GraphQLFieldResolver :=
  if is_function targetResolver
  then fun root args context info => js_call targetResolver root [args; context; info]
  else defaultFieldResolver.

(** The body of the thunk that [Field] stores, run against the registry of
    the moment it is invoked. *)
Definition runField (r : Registry) (th : FieldThunk) : Result GraphQLFieldConfig :=
  _type ← getGraphQLType r (ft_type th);
  if negb (isOutputType _type)
  then throw "Type is not output"
  else
    fieldArgs ← mountArguments r (default [] (fc_args (ft_config th))) ∅;
    let targetResolver := proto_get (ft_target th) (ft_key th) in
    mret {| f_args := fieldArgs;
            f_type := _type;
            f_description := getDescription (ft_target th) (Some (ft_key th));
            f_deprecationReason := getDeprecationReason (ft_target th) (Some (ft_key th));
            f_resolve := fieldResolver targetResolver |}.

(** [Field ${key} is already defined in ${_class}.] *)
Definition duplicate_error (key : string) (_class : Ctor) : string :=
  "Field " +:+ key +:+ " is already defined in " +:+ String_of (AClass _class) +:+ ".".

(** [key in fields].  A pending map is an ordinary object, as the [{}] of the
    [UnmountedFieldMap]s that the source builds: besides the names decorated
    so far, which are its own, the names that an object inherits are in it
    too. *)
Definition key_in {V : Type} (key : string) (fields : gmap string V) : bool :=
  bool_decide (is_Some (fields !! key)) || in_Object_prototype key.

(** [Field(type, config)(target, key)] *)
Definition Field (type : Any) (config : FieldConfig) (target : Ctor) (key : string)
    : M unit := fun r =>
  let _class := target in
  let fields := getFields r (AClass _class) in
  if key_in key fields
  then (throw (duplicate_error key _class), r)
  else
    let thunk := {| ft_type := type; ft_config := config;
                    ft_target := target; ft_key := key |} in
    (mret tt, setFields _class (<[key := thunk]> fields) r).

(** ** [InputField] *)

Definition or_value (a : option Value) (b : Value) : Value :=
  match a with
  | Some v => if truthy v then v else b
  | None => b
  end.

Definition runInputField (r : Registry) (th : InputFieldThunk)
    : Result GraphQLInputFieldConfig :=
  _type ← getGraphQLType r (ift_type th);
  if negb (isInputType _type)
  then throw "Type is not input"
  else
    let config := ift_config th in
    let defaultValue := proto_get (ift_target th) (ift_key th) in
    mret {| if_type := _type;
            if_description :=
              or_opt_string (ifc_description config)
                (getDescription (ift_target th) (Some (ift_key th)));
            if_deprecationReason :=
              or_opt_string (ifc_deprecationReason config)
                (getDeprecationReason (ift_target th) (Some (ift_key th)));
            if_defaultValue := or_value (ifc_defaultValue config) defaultValue |}.

(** [InputField(type, config)(target, key)] *)
Definition InputField (type : Any) (config : InputFieldConfig) (target : Ctor)
    (key : string) : M unit := fun r =>
  let _class := target in
  let fields := getInputFields r (AClass _class) in
  if key_in key fields
  then (throw (duplicate_error key _class), r)
  else
    let thunk := {| ift_type := type; ift_config := config;
                    ift_target := target; ift_key := key |} in
    (mret tt, setInputFields _class (<[key := thunk]> fields) r).

End Decorators.

(** ** Class decorators *)

Record ObjectTypeConfig `{Carriers} : Type := {
  otc_name : option string;
  otc_description : option string;
  otc_interfaces : option (list Any)
}.

Record InterfaceTypeConfig `{Carriers} : Type := {
  itc_name : option string;
  itc_description : option string;
  itc_resolveType : option (Value → Value → Value → Any)
}.

Record InputObjectTypeConfig : Type := {
  iotc_name : option string;
  iotc_description : option string
}.

Record EnumTypeConfig : Type := {
  etc_name : option string;
  etc_description : option string
}.

Section ClassDecorators.
Context `{Carriers} `{!Host} `{!GraphQL} `{!Reflection}.

(** The object spread [{...a, ...b}]: the keys of both, [b] winning. *)
Definition spread {V : Type} (a b : gmap string V) : gmap string V := b ∪ a.

(** The callback of [(opts.interfaces || []).map(...)]. *)
Definition resolveInterface (r : Registry) (iface : Any) : Result GraphQLType :=
  ifaceType ← getGraphQLType r iface;
  if negb (isInterfaceType ifaceType)
  then throw "Provided interface is not valid"
  else mret ifaceType.



(** [allInterfaceFields] after the [forEach] over [opts.interfaces]. *)
Definition allInterfaceFields (r : Registry) (interfaces : list Any)
    : gmap string FieldThunk :=
  foldl (fun acc iface => spread acc (getFields r iface)) ∅ interfaces.

(** The [fields] of [ObjectType]: first the fields from the interfaces that
    the class inherits, then the fields of the class. *)
Definition ObjectType_fields (r : Registry) (opts : ObjectTypeConfig) (target : Ctor)
    : gmap string FieldThunk :=
  spread (allInterfaceFields r (default [] (otc_interfaces opts)))
         (getFields r (AClass target)).

(** The configuration that [ObjectType] hands to [new GraphQLObjectType]. *)
Definition ObjectType_config (opts : ObjectTypeConfig) (target : Ctor)
    (interfaces : list GraphQLType) (mounted : MountedFields)
    : GraphQLObjectTypeConfig :=
  {| ot_name := or_string (otc_name opts) (class_name target);
     ot_description :=
       or_opt_string (otc_description opts) (getDescription target None);
     ot_interfaces := interfaces;
     ot_fields := mounted |}.

(** [ObjectType(opts)(target)] *)
Definition ObjectType (opts : ObjectTypeConfig) (target : Ctor) : M Ctor :=
  interfaces ← reading (fun r =>
    mapM (resolveInterface r) (default [] (otc_interfaces opts)));
  fields ← reading (fun r => mret (ObjectType_fields r opts target));
  _ ← reading (fun _ => assertFields target fields);
  mounted ← reading (fun r => mountFields r fields);
  type ← reading (fun _ =>
    GraphQLObjectType (ObjectType_config opts target interfaces mounted));
  _ ← writing (setGraphQLType target type);
  mret target.

(** The [resolveType] that [InterfaceType] hands to the library. *)
Definition InterfaceType_resolveType (opts : InterfaceTypeConfig) : GraphQLTypeResolver :=
  fun r root context info =>
    let root' :=
      match itc_resolveType opts with
      | Some resolveType => resolveType root context info
      | None => AValue root
      end in
    getGraphQLType r root'.

(** The configuration that [InterfaceType] hands to
    [new GraphQLInterfaceType]. *)
Definition InterfaceType_config (opts : InterfaceTypeConfig) (target : Ctor)
    (mounted : MountedFields) : GraphQLInterfaceTypeConfig :=
  {| it_name := or_string (itc_name opts) (class_name target);
     it_description :=
       or_opt_string (itc_description opts) (getDescription target None);
     it_resolveType := InterfaceType_resolveType opts;
     it_fields := mounted |}.

(** [InterfaceType(opts)(target)] *)
Definition InterfaceType (opts : InterfaceTypeConfig) (target : Ctor) : M Ctor :=
  fields ← reading (fun r => mret (getFields r (AClass target)));
  _ ← reading (fun _ => assertFields target fields);
  mounted ← reading (fun r => mountFields r fields);
  type ← reading (fun _ =>
    GraphQLInterfaceType (InterfaceType_config opts target mounted));
  _ ← writing (setGraphQLType target type);
  mret target.

(** The configuration that [InputObjectType] hands to
    [new GraphQLInputObjectType]. *)
Definition InputObjectType_config (opts : InputObjectTypeConfig) (target : Ctor)
    (mounted : MountedInputFields) : GraphQLInputObjectTypeConfig :=
  {| iot_name := or_string (iotc_name opts) (class_name target);
     iot_description :=
       or_opt_string (iotc_description opts) (getDescription target None);
     iot_fields := mounted |}.

(** [InputObjectType(opts)(target)] *)
Definition InputObjectType (opts : InputObjectTypeConfig) (target : Ctor) : M Ctor :=
  fields ← reading (fun r => mret (getInputFields r (AClass target)));
  _ ← reading (fun _ => assertInputFields target fields);
  mounted ← reading (fun r => mountInputFields r fields);
  type ← reading (fun _ =>
    GraphQLInputObjectType (InputObjectType_config opts target mounted));
  _ ← writing (setGraphQLType target type);
  mret target.

(** [Object.getOwnPropertyNames(BaseClass)] *)
Definition BaseClassProperties : list string := getOwnPropertyNames BaseClass.

(** We remove the properties automatically included in the BaseClass, such
    as [.length], [.name] and [.prototype]. *)
Definition getStaticProperties (_class : Ctor) : list string :=
  filter (fun name => name ∉ BaseClassProperties) (getOwnPropertyNames _class).

(** The body of the [forEach] of [EnumType]: [values[name] = {...}]. *)
Definition enumValue (target : Ctor) (name : string) : GraphQLEnumValueConfig :=
  {| ev_value := static_get target name;
     ev_description := getDescription target (Some name);
     ev_deprecationReason := getDeprecationReason target (Some name) |}.

Definition EnumType_values (target : Ctor) : gmap string GraphQLEnumValueConfig :=
  foldl (fun values name => <[name := enumValue target name]> values) ∅
        (getStaticProperties target).

(** The configuration that [EnumType] hands to [new GraphQLEnumType]. *)
Definition EnumType_config (opts : EnumTypeConfig) (target : Ctor)
    : GraphQLEnumTypeConfig :=
  let values := EnumType_values target in
  {| et_name := or_string (etc_name opts) (class_name target);
     et_description :=
       or_opt_string (etc_description opts) (getDescription target None);
     et_values := values |}.

(** The name of the enum as the specification words it: "named opts.name
    when given, otherwise the class's name". *)
Definition claimed_enum_name (opts : EnumTypeConfig) (target : Ctor) : string :=
  match etc_name opts with
  | Some name => name
  | None => class_name target
  end.

(** [EnumType(opts)(target)] *)
Definition EnumType (opts : EnumTypeConfig) (target : Ctor) : M Ctor :=
  type ← reading (fun _ => GraphQLEnumType (EnumType_config opts target));
  _ ← writing (setGraphQLType target type);
  mret target.

End ClassDecorators.

(** ** [src/definitions/structures.ts] *)

Module Structures.
Section Structures.
Context `{Carriers} `{!GraphQL} `{!Reflection}.

(** [List(String)] is converted to [GraphQLList(GraphQLString)]. *)
Definition List (r : Registry) (ofType : Any) : Result GraphQLType :=
  t ← getGraphQLType r ofType;
  GraphQLList t.

(** [NonNull(String)] is converted to [GraphQLNonNull(GraphQLString)]. *)
Definition NonNull (r : Registry) (ofType : Any) : Result GraphQLType :=
  t ← getGraphQLType r ofType;
  GraphQLNonNull t.

End Structures.
End Structures.

(** ** The schema object *)

(** [SchemaConfig]: the root classes. *)
Record SchemaConfig `{Carriers} : Type := {
  query : Any;
  mutation : option Any
}.

(** Modelled from the spec: the schema object of [src/types/schema.ts], which
    is not among the sources: "a root object aggregates Query/Mutation class
    references into a schema object exposing toString() and execute()", which
    "simply delegate to the wrapped library's printer and executor". *)
Record Schema `{Carriers} : Type := {
  schema : GraphQLSchema
}.

Section SchemaObject.
Context `{Carriers} `{!GraphQL} `{!Reflection}.

(** Modelled from the spec: the schema assembled from the root classes, each
    resolved to its external type. *)
Definition assembled (r : Registry) (config : SchemaConfig) : Result GraphQLSchema :=
  queryType ← getGraphQLType r (query config);
  mutationType ←
    match mutation config with
    | Some m => t ← getGraphQLType r m; mret (Some t)
    | None => mret None
    end;
  new_GraphQLSchema {| sc_query := queryType; sc_mutation := mutationType |}.

(** Modelled from the spec: [new Schema(config)]. *)
Definition new_Schema (r : Registry) (config : SchemaConfig) : Result Schema :=
  s ← assembled r config;
  mret {| schema := s |}.

(** Modelled from the spec: [toString()] delegates to the library's printer. *)
Definition Schema_toString (s : Schema) : string := printSchema (schema s).

(** Modelled from the spec: [execute(queryString)] delegates to the library's
    executor. *)
Definition Schema_execute (s : Schema) (queryString : string) : ExecutionResult :=
  graphql (schema s) queryString.

End SchemaObject.

(** ** A small world to run the decorators in

    The Star Wars classes of [examples/starwars/schema.ts], a host and a
    library reduced to what the decorators observe. *)

Module Demo.

Inductive value : Type :=
| VUndefined
| VNumber (n : Z)
| VString (s : string)
| VNative (name : string)
| VFunction (name : string)
| VResult (fn : string) (this : value) (args : list value).

Inductive type : Type :=
| TScalar (name : string)
| TObject (name : string) (interfaces : list type) (fields : list string)
| TInterface (name : string) (fields : list string)
| TInputObject (name : string) (fields : list string)
| TEnum (name : string) (values : list (string * value))
| TList (ofType : type)
| TNonNull (ofType : type).

#[export] Instance carriers : Carriers := {|
  Value := value;
  GraphQLType := type;
  MountedFields := list string;
  MountedInputFields := list string;
  GraphQLSchema := type * option type;
  ExecutionResult := string
|}.

Definition Character : Ctor := 1%positive.
Definition Human : Ctor := 2%positive.
Definition Droid : Ctor := 3%positive.
Definition Episode : Ctor := 4%positive.
Definition Query : Ctor := 5%positive.
Definition ReviewInput : Ctor := 6%positive.
Definition Plain : Ctor := 9%positive.

Definition name_of (c : Ctor) : string :=
  if decide (c = Character) then "Character"
  else if decide (c = Human) then "Human"
  else if decide (c = Droid) then "Droid"
  else if decide (c = Episode) then "Episode"
  else if decide (c = Query) then "Query"
  else if decide (c = ReviewInput) then "ReviewInput"
  else "BaseClass".

Definition statics (c : Ctor) : list (string * value) :=
  [("length", VNumber 0); ("name", VString (name_of c)); ("prototype", VUndefined)] ++
  (if decide (c = Episode)
   then [("NEWHOPE", VNumber 4); ("EMPIRE", VNumber 5); ("JEDI", VNumber 6)]
   else []).

Definition methods (c : Ctor) : list (string * value) :=
  if decide (c = Character) then [("friends", VFunction "friends")]
  else if decide (c = Query)
  then [("hero", VFunction "hero"); ("human", VFunction "human");
        ("droid", VFunction "droid")]
  else [].

Definition lookup_or_undefined (l : list (string * value)) (k : string) : value :=
  match list_find (fun p => p.1 = k) l with
  | Some (_, (_, v)) => v
  | None => VUndefined
  end.

#[export] Instance host : Host := {|
  truthy v :=
    match v with
    | VUndefined => false
    | VNumber n => negb (n =? 0)%Z
    | VString s => negb (bool_decide (s = EmptyString))
    | _ => true
    end;
  is_function v := match v with VFunction _ | VNative _ => true | _ => false end;
  js_call f this args :=
    match f with VFunction n | VNative n => VResult n this args | _ => VUndefined end;
  class_name := name_of;
  getOwnPropertyNames c := (statics c).*1;
  static_get c := lookup_or_undefined (statics c);
  proto_get c := lookup_or_undefined (methods c);
  String_of a :=
    match a with
    | AClass c => "class " +:+ name_of c
    | AType _ => "[type]"
    | AUndefined => "undefined"
    | _ => "[object Object]"
    end;
  in_Object_prototype name :=
    bool_decide (name ∈ ["constructor"; "hasOwnProperty"; "isPrototypeOf";
                         "propertyIsEnumerable"; "toLocaleString"; "toString";
                         "valueOf"; "__proto__"; "__defineGetter__";
                         "__defineSetter__"; "__lookupGetter__"; "__lookupSetter__"]);
  TypeError_undefined p := "Cannot read property '" +:+ p +:+ "' of undefined";
  BaseClass := Plain
|}.

Fixpoint is_output (t : type) : bool :=
  match t with
  | TInputObject _ _ => false
  | TList t | TNonNull t => is_output t
  | _ => true
  end.

Fixpoint is_input (t : type) : bool :=
  match t with
  | TScalar _ | TEnum _ _ | TInputObject _ _ => true
  | TList t | TNonNull t => is_input t
  | _ => false
  end.

Definition keys_of (c : GraphQLEnumTypeConfig) : list (string * value) :=
  fmap (M := list) (fun p => (p.1, ev_value p.2)) (map_to_list (et_values c)).

(** The library's constructors reject a type without a name. *)
Definition named (name : string) (t : type) : Result type :=
  if decide (name = EmptyString) then inl "Type must be named." else inr t.

#[export] Instance library : GraphQL := {|
  isOutputType := is_output;
  isInputType := is_input;
  isInterfaceType t := match t with TInterface _ _ => true | _ => false end;
  defaultFieldResolver root _ _ _ := root;
  GraphQLList t := inr (TList t);
  GraphQLNonNull t :=
    match t with
    | TNonNull _ => inl "Can only create NonNull of a Nullable GraphQLType"
    | _ => inr (TNonNull t)
    end;
  GraphQLObjectType c := named (ot_name c) (TObject (ot_name c) (ot_interfaces c) (ot_fields c));
  GraphQLInterfaceType c := named (it_name c) (TInterface (it_name c) (it_fields c));
  GraphQLInputObjectType c := named (iot_name c) (TInputObject (iot_name c) (iot_fields c));
  GraphQLEnumType c := named (et_name c) (TEnum (et_name c) (keys_of c));
  new_GraphQLSchema c :=
    match sc_query c with
    | TObject _ _ _ => inr (sc_query c, sc_mutation c)
    | _ => inl "Schema query must be Object Type but got something else."
    end;
  printSchema s :=
    match s.1 with
    | TObject n _ _ => "schema { query: " +:+ n +:+ " }"
    | _ => "schema"
    end;
  graphql s q := "{ data: " +:+ q +:+ " }"
|}.

Definition resolve (r : Registry) (a : Any) : Result type :=
  match a with
  | AType t => inr t
  | AClass c =>
      match reg_types r !! c with
      | Some t => inr t
      | None => inl ("The target " +:+ name_of c +:+ " have no GraphQL type associated to it.")
      end
  | AValue (VNative "String") => inr (TScalar "String")
  | AValue (VNative "Number") => inr (TScalar "Float")
  | AValue (VNative "Boolean") => inr (TScalar "Boolean")
  | AArray [AClass c] =>
      match reg_types r !! c with
      | Some t => inr (TList t)
      | None => inl ("The target " +:+ name_of c +:+ " have no GraphQL type associated to it.")
      end
  | _ => inl "The target have no GraphQL type associated to it."
  end.

#[export] Instance reflection : Reflection := {|
  getGraphQLType := resolve;
  getDescription c k :=
    match k with
    | None => if decide (c = Character) then Some "A character in the Star Wars Trilogy" else None
    | Some "NEWHOPE" => Some "Released in 1977."
    | Some "EMPIRE" => Some "Released in 1980."
    | Some "JEDI" => Some "Released in 1983."
    | Some "id" => Some "The id of the character."
    | Some _ => None
    end;
  getDeprecationReason c k :=
    match k with
    | Some "id" => Some "This is no longer used"
    | _ => None
    end;
  assertFields c fields :=
    if decide (fields = ∅) then inl ("Type " +:+ name_of c +:+ " must have fields defined on it.")
    else inr tt;
  mountFields r fields := inr (map_to_list fields).*1;
  assertInputFields c fields :=
    if decide (fields = ∅) then inl ("Type " +:+ name_of c +:+ " must have fields defined on it.")
    else inr tt;
  mountInputFields r fields := inr (map_to_list fields).*1
|}.

Definition String : Any := AValue (VNative "String").
Definition ID : Any := AType (TScalar "ID").

(** The registry after a decorator, whatever it returned. *)
Definition after {A : Type} (m : M A) (r : Registry) : Registry := (m r).2.

(** [Character] with its fields [id], [name] and [friends], decorated with
    [InterfaceType]; [Episode] decorated with [EnumType]. *)
Definition registry_character : Registry :=
  after (InterfaceType
           {| itc_name := None; itc_description := None; itc_resolveType := None |}
           Character)
    (after (Field String FieldConfig_empty Character "friends")
       (after (Field String FieldConfig_empty Character "name")
          (after (Field ID FieldConfig_empty Character "id")
             (after (EnumType {| etc_name := None; etc_description := None |} Episode)
                Registry_empty)))).

(** [Human] with its own fields [homePlanet] and [name] (an [ID] here, where
    [Character] has a [String]), before [ObjectType]. *)
Definition registry_human : Registry :=
  after (Field ID FieldConfig_empty Human "name")
    (after (Field String FieldConfig_empty Human "homePlanet") registry_character).

Definition human_opts : ObjectTypeConfig :=
  {| otc_name := None; otc_description := None;
     otc_interfaces := Some [AClass Character] |}.

(** [ReviewInput] with the input field [stars], decorated with
    [InputObjectType]. *)
Definition review_opts : InputObjectTypeConfig :=
  {| iotc_name := None; iotc_description := None |}.

Definition registry_review : Registry :=
  after (InputObjectType review_opts ReviewInput)
    (after (InputField String
              {| ifc_defaultValue := None; ifc_description := None;
                 ifc_deprecationReason := None |}
              ReviewInput "stars")
       registry_human).

(** [Query] with the field [hero], decorated with [ObjectType]. *)
Definition hero_config : FieldConfig :=
  {| fc_args := Some [("episode", AClass Episode)];
     fc_description := None; fc_deprecationReason := None |}.

Definition query_opts : ObjectTypeConfig :=
  {| otc_name := None; otc_description := None; otc_interfaces := None |}.

Definition registry_query : Registry :=
  after (ObjectType query_opts Query)
    (after (Field (AClass Character) hero_config Query "hero") registry_review).

Definition thunk (type : Any) (config : FieldConfig) (target : Ctor) (key : string)
    : FieldThunk :=
  {| ft_type := type; ft_config := config; ft_target := target; ft_key := key |}.

(** [@Field(String, {args: {id: Argument(String, "The id", "1000")}}) human] *)
Definition human_config : FieldConfig :=
  {| fc_args := Some [("id", Argument String (Some "The id") (Some (VString "1000")))];
     fc_description := None; fc_deprecationReason := None |}.

(** [@Field(String, {args: {id: String, of: Character}}) name] *)
Definition bad_argument_config : FieldConfig :=
  {| fc_args := Some [("id", String); ("of", AClass Character); ("n", AClass Human)];
     fc_description := None; fc_deprecationReason := None |}.

(** [EnumType({name: ''})] *)
Definition empty_name_opts : EnumTypeConfig :=
  {| etc_name := Some EmptyString; etc_description := None |}.

(** [Character] with its three fields, before [InterfaceType]. *)
Definition registry_character_fields : Registry :=
  after (Field String FieldConfig_empty Character "friends")
    (after (Field String FieldConfig_empty Character "name")
       (after (Field ID FieldConfig_empty Character "id")
          (after (EnumType {| etc_name := None; etc_description := None |} Episode)
             Registry_empty))).

(** [InterfaceType({resolveType: root => Human})] *)
Definition character_opts : InterfaceTypeConfig :=
  {| itc_name := None; itc_description := None;
     itc_resolveType := Some (fun _ _ _ => AClass Human) |}.

(** [Query] with the field [hero], before [ObjectType]. *)
Definition registry_query_fields : Registry :=
  after (Field (AClass Character) hero_config Query "hero") registry_review.

(** The members [id] and [name] of a class body. *)
Definition droid_members : list (string * (Any * FieldConfig)) :=
  [("id", (ID, FieldConfig_empty)); ("name", (String, FieldConfig_empty))].

(** [ObjectType({name: "Person", description: '', interfaces: [Character]})] *)
Definition person_opts : ObjectTypeConfig :=
  {| otc_name := Some "Person"; otc_description := Some EmptyString;
     otc_interfaces := Some [AClass Character] |}.

(** [@InputField(String, {defaultValue: 0, description: "Stars"}) stars] *)
Definition stars_thunk : InputFieldThunk :=
  {| ift_type := String;
     ift_config := {| ifc_defaultValue := Some (VNumber 0);
                      ifc_description := Some "Stars";
                      ifc_deprecationReason := None |};
     ift_target := ReviewInput; ift_key := "stars" |}.

End Demo.

(** ** Notions for the further properties of the decorators *)

Section Notions.
Context `{Carriers} `{!Host}.

(** Every pending thunk sits under its own key, in the map of its own class. *)
Definition thunks_in_place (r : Registry) : Prop :=
  (∀ c k th, getFields r (AClass c) !! k = Some th →
             ft_target th = c ∧ ft_key th = k) ∧
  (∀ c k th, getInputFields r (AClass c) !! k = Some th →
             ift_target th = c ∧ ift_key th = k).

(** The [@Field] decorators of one class body, applied in the order of its
    members, as for the classes of [examples/starwars/schema.ts]; the first
    one that throws ends the run. *)
Fixpoint Field_all (target : Ctor) (members : list (string * (Any * FieldConfig)))
    : M unit :=
  match members with
  | [] => mret tt
  | (key, (type, config)) :: rest =>
      _ ← Field type config target key;
      Field_all target rest
  end.

(** What [given || fallback] chooses, for a name and for a description. *)
Definition chosen_name (given : option string) (fallback chosen : string) : Prop :=
  (∀ name, given = Some name → name ≠ EmptyString → chosen = name) ∧
  (given = None ∨ given = Some EmptyString → chosen = fallback).

Definition chosen_description (given fallback chosen : option string) : Prop :=
  (∀ d, given = Some d → d ≠ EmptyString → chosen = Some d) ∧
  (given = None ∨ given = Some EmptyString → chosen = fallback).

End Notions.

(** * Properties *)

(** Unfolds the steps of a decorator down to the registry it returns. *)
Ltac unfold_decorator :=
  unfold mbind, M_mbind, M_bind, reading, writing, mret, M_mret, M_ret.

Section Properties.
Context `{Carriers} `{!Host} `{!GraphQL} `{!Reflection}.

(** ** The object spread and the inherited fields *)

Lemma lookup_spread {V : Type} (a b : gmap string V) (k : string) :
  spread a b !! k = match b !! k with Some v => Some v | None => a !! k end.
Proof.
  unfold spread. rewrite lookup_union.
  destruct (b !! k), (a !! k); reflexivity.
Qed.

Lemma inherited_fold_absent (r : Registry) (l : list Any) (acc : gmap string FieldThunk)
    (k : string) :
  (∀ i, i ∈ l → getFields r i !! k = None) →
  foldl (fun acc iface => spread acc (getFields r iface)) acc l !! k = acc !! k.
Proof.
  revert acc. induction l as [|i l IH]; intros acc Hl; simpl; [reflexivity|].
  rewrite IH.
  - rewrite lookup_spread, (Hl i); [reflexivity | left].
  - intros j Hj. apply Hl. right. exact Hj.
Qed.

Lemma inherited_fold_None (r : Registry) (l : list Any) (acc : gmap string FieldThunk)
    (k : string) :
  foldl (fun acc iface => spread acc (getFields r iface)) acc l !! k = None ↔
  acc !! k = None ∧ ∀ i, i ∈ l → getFields r i !! k = None.
Proof.
  revert acc. induction l as [|i l IH]; intros acc; simpl.
  - split; [intros Hk; split; [exact Hk | intros i Hi; inversion Hi] | tauto].
  - rewrite IH, lookup_spread. split.
    + intros [Hk Hl]. destruct (getFields r i !! k) eqn:Hi; [discriminate|].
      split; [exact Hk|]. intros j Hj.
      apply elem_of_cons in Hj as [-> | Hj]; [exact Hi | apply Hl, Hj].
    + intros [Hk Hl]. rewrite (Hl i) by left. split; [exact Hk|].
      intros j Hj. apply Hl. right. exact Hj.
Qed.

(** The last listed interface that declares [k] provides the inherited
    thunk. *)
Lemma allInterfaceFields_last (r : Registry) (l1 l2 : list Any) (iface : Any)
    (k : string) (th : FieldThunk) :
  getFields r iface !! k = Some th →
  (∀ i, i ∈ l2 → getFields r i !! k = None) →
  allInterfaceFields r (l1 ++ iface :: l2) !! k = Some th.
Proof.
  intros Hk Hl2. unfold allInterfaceFields.
  rewrite foldl_app. simpl.
  rewrite inherited_fold_absent by exact Hl2.
  rewrite lookup_spread, Hk. reflexivity.
Qed.

Lemma allInterfaceFields_None (r : Registry) (l : list Any) (k : string) :
  allInterfaceFields r l !! k = None ↔ ∀ i, i ∈ l → getFields r i !! k = None.
Proof.
  unfold allInterfaceFields. rewrite inherited_fold_None, lookup_empty. tauto.
Qed.

(** ** The class decorators, step by step *)

Lemma ObjectType_unfold (opts : ObjectTypeConfig) (target : Ctor) (r : Registry) :
  ObjectType opts target r =
  match mapM (resolveInterface r) (default [] (otc_interfaces opts)) with
  | inl e => (inl e, r)
  | inr interfaces =>
      let fields := ObjectType_fields r opts target in
      match assertFields target fields with
      | inl e => (inl e, r)
      | inr _ =>
          match mountFields r fields with
          | inl e => (inl e, r)
          | inr mounted =>
              match GraphQLObjectType (ObjectType_config opts target interfaces mounted) with
              | inl e => (inl e, r)
              | inr type => (inr target, setGraphQLType target type r)
              end
          end
      end
  end.
Proof.
  unfold ObjectType. unfold_decorator.
  destruct (mapM _ _) as [e|tys]; [reflexivity|]. simpl.
  destruct (assertFields _ _) as [e|[]]; [reflexivity|].
  destruct (mountFields _ _) as [e|mounted]; [reflexivity|].
  destruct (GraphQLObjectType _) as [e|type]; reflexivity.
Qed.

Lemma setGraphQLType_lookup (target : Ctor) (ty : GraphQLType) (r : Registry) :
  reg_types (setGraphQLType target ty r) !! target = Some ty.
Proof. unfold setGraphQLType. simpl. apply lookup_insert_eq. Qed.

(** C1: the field map that [ObjectType] hands to [mountFields], and from
    which the external object type is built, holds the fields of the listed
    interfaces and those of the class: a field of the class wins over an
    inherited one of the same name, an inherited field that the class does
    not declare is present (among the interfaces, the one listed last wins),
    and nothing else is in the map. *)
Theorem C1_object_type_fields (opts : ObjectTypeConfig) (target : Ctor) (r : Registry)
    (ifaces : list Any) :
  otc_interfaces opts = Some ifaces →
  let own := getFields r (AClass target) in
  let fields := ObjectType_fields r opts target in
  (∀ k th, own !! k = Some th → fields !! k = Some th) ∧
  (∀ k th l1 iface l2,
     ifaces = l1 ++ iface :: l2 →
     getFields r iface !! k = Some th →
     (∀ i, i ∈ l2 → getFields r i !! k = None) →
     own !! k = None →
     fields !! k = Some th) ∧
  (∀ k, fields !! k = None ↔
        own !! k = None ∧ ∀ i, i ∈ ifaces → getFields r i !! k = None) ∧
  (∀ c r', ObjectType opts target r = (inr c, r') →
     ∃ cfg type,
       mountFields r fields = inr (ot_fields cfg) ∧
       GraphQLObjectType cfg = inr type ∧
       reg_types r' !! target = Some type).
Proof.
  intros Hopts own fields.
  assert (Hlook : ∀ k, fields !! k =
            match own !! k with
            | Some th => Some th
            | None => allInterfaceFields r ifaces !! k
            end).
  { intros k. unfold fields, ObjectType_fields. rewrite Hopts. apply lookup_spread. }
  split; [|split; [|split]].
  - intros k th Hk. rewrite Hlook, Hk. reflexivity.
  - intros k th l1 iface l2 -> Hk Hl2 Hown.
    rewrite Hlook, Hown. apply allInterfaceFields_last; assumption.
  - intros k. rewrite Hlook, <- allInterfaceFields_None.
    destruct (own !! k); [|tauto].
    split; [discriminate | intros [Hown _]; discriminate].
  - intros c r' Hrun. rewrite ObjectType_unfold in Hrun.
    destruct (mapM _ _) as [e|tys]; [discriminate|]. simpl in Hrun.
    destruct (assertFields _ _) as [e|[]]; [discriminate|].
    fold fields in Hrun.
    destruct (mountFields r fields) as [e|mounted] eqn:Hm; [discriminate|].
    destruct (GraphQLObjectType _) as [e|type] eqn:Hnew; [discriminate|].
    injection Hrun as <- <-.
    eexists _, type. split; [|split; [exact Hnew | apply setGraphQLType_lookup]].
    reflexivity.
Qed.

(** ** Field decoration *)

Lemma getFields_setFields (c : Ctor) (fields : gmap string FieldThunk) (r : Registry) :
  getFields (setFields c fields r) (AClass c) = fields.
Proof. unfold getFields, setFields. simpl. rewrite lookup_insert_eq. reflexivity. Qed.

Lemma getFields_setFields_ne (c : Ctor) (fields : gmap string FieldThunk) (r : Registry)
    (a : Any) :
  a ≠ AClass c → getFields (setFields c fields r) a = getFields r a.
Proof.
  intros Hne. destruct a as [|c'| | | |]; try reflexivity.
  unfold getFields, setFields. simpl.
  rewrite lookup_insert_ne; [reflexivity | congruence].
Qed.

Lemma getInputFields_setInputFields (c : Ctor) (fields : gmap string InputFieldThunk)
    (r : Registry) :
  getInputFields (setInputFields c fields r) (AClass c) = fields.
Proof.
  unfold getInputFields, setInputFields. simpl. rewrite lookup_insert_eq. reflexivity.
Qed.

Lemma getInputFields_setInputFields_ne (c : Ctor) (fields : gmap string InputFieldThunk)
    (r : Registry) (a : Any) :
  a ≠ AClass c → getInputFields (setInputFields c fields r) a = getInputFields r a.
Proof.
  intros Hne. destruct a as [|c'| | | |]; try reflexivity.
  unfold getInputFields, setInputFields. simpl.
  rewrite lookup_insert_ne; [reflexivity | congruence].
Qed.

Lemma key_in_true {V : Type} (key : string) (fields : gmap string V) :
  key_in key fields = true ↔
  is_Some (fields !! key) ∨ in_Object_prototype key = true.
Proof.
  unfold key_in. rewrite orb_true_iff, bool_decide_eq_true. reflexivity.
Qed.

Lemma key_in_false {V : Type} (key : string) (fields : gmap string V) :
  key_in key fields = false ↔
  fields !! key = None ∧ in_Object_prototype key = false.
Proof.
  unfold key_in. rewrite orb_false_iff, bool_decide_eq_false, <- eq_None_not_Some.
  reflexivity.
Qed.

Lemma Field_duplicate (type : Any) (config : FieldConfig) (target : Ctor) (key : string)
    (r : Registry) :
  is_Some (getFields r (AClass target) !! key) →
  Field type config target key r = (inl (duplicate_error key target), r).
Proof.
  intros Hk. unfold Field.
  rewrite (proj2 (key_in_true key _) (or_introl Hk)). reflexivity.
Qed.

(** A name that an object inherits is taken for a field defined already. *)
Lemma Field_inherited (type : Any) (config : FieldConfig) (target : Ctor) (key : string)
    (r : Registry) :
  in_Object_prototype key = true →
  Field type config target key r = (inl (duplicate_error key target), r).
Proof.
  intros Hk. unfold Field.
  rewrite (proj2 (key_in_true key _) (or_intror Hk)). reflexivity.
Qed.

Lemma Field_fresh (type : Any) (config : FieldConfig) (target : Ctor) (key : string)
    (r : Registry) :
  getFields r (AClass target) !! key = None →
  in_Object_prototype key = false →
  ∃ r', Field type config target key r = (inr tt, r') ∧
        getFields r' (AClass target) =
          <[key := {| ft_type := type; ft_config := config;
                      ft_target := target; ft_key := key |}]>
            (getFields r (AClass target)) ∧
        same_but_fields target r r'.
Proof.
  intros Hk Hown. unfold Field.
  rewrite (proj2 (key_in_false key _) (conj Hk Hown)).
  eexists. split; [reflexivity|].
  split; [apply getFields_setFields|].
  split; [reflexivity|]. split; [reflexivity|].
  intros a Ha. apply getFields_setFields_ne, Ha.
Qed.

(** What [Field] did when it returned, and why when it threw. *)
Lemma Field_returns (type : Any) (config : FieldConfig) (target : Ctor) (key : string)
    (r r' : Registry) :
  Field type config target key r = (inr tt, r') →
  getFields r (AClass target) !! key = None ∧
  in_Object_prototype key = false ∧
  r' = setFields target
         (<[key := {| ft_type := type; ft_config := config;
                      ft_target := target; ft_key := key |}]>
            (getFields r (AClass target))) r.
Proof.
  unfold Field. destruct (key_in key _) eqn:Hin; [discriminate|].
  apply key_in_false in Hin as [Hk Hown].
  intros [= <-]. split; [exact Hk|]. split; [exact Hown | reflexivity].
Qed.

Lemma Field_throws (type : Any) (config : FieldConfig) (target : Ctor) (key : string)
    (r r' : Registry) (e : string) :
  Field type config target key r = (inl e, r') →
  e = duplicate_error key target ∧ r' = r ∧
  (is_Some (getFields r (AClass target) !! key) ∨ in_Object_prototype key = true).
Proof.
  unfold Field. destruct (key_in key _) eqn:Hin; [|discriminate].
  apply key_in_true in Hin.
  intros [= <- <-]. split; [reflexivity|]. split; [reflexivity | exact Hin].
Qed.

Lemma InputField_duplicate (type : Any) (config : InputFieldConfig) (target : Ctor)
    (key : string) (r : Registry) :
  is_Some (getInputFields r (AClass target) !! key) →
  InputField type config target key r = (inl (duplicate_error key target), r).
Proof.
  intros Hk. unfold InputField.
  rewrite (proj2 (key_in_true key _) (or_introl Hk)). reflexivity.
Qed.

Lemma InputField_inherited (type : Any) (config : InputFieldConfig) (target : Ctor)
    (key : string) (r : Registry) :
  in_Object_prototype key = true →
  InputField type config target key r = (inl (duplicate_error key target), r).
Proof.
  intros Hk. unfold InputField.
  rewrite (proj2 (key_in_true key _) (or_intror Hk)). reflexivity.
Qed.

Lemma InputField_fresh (type : Any) (config : InputFieldConfig) (target : Ctor)
    (key : string) (r : Registry) :
  getInputFields r (AClass target) !! key = None →
  in_Object_prototype key = false →
  ∃ r', InputField type config target key r = (inr tt, r') ∧
        getInputFields r' (AClass target) =
          <[key := {| ift_type := type; ift_config := config;
                      ift_target := target; ift_key := key |}]>
            (getInputFields r (AClass target)) ∧
        same_but_inputFields target r r'.
Proof.
  intros Hk Hown. unfold InputField.
  rewrite (proj2 (key_in_false key _) (conj Hk Hown)).
  eexists. split; [reflexivity|].
  split; [apply getInputFields_setInputFields|].
  split; [reflexivity|]. split; [reflexivity|].
  intros a Ha. apply getInputFields_setInputFields_ne, Ha.
Qed.

(** [Field] (and [InputField]) on a name that the pending field map of the
    class already holds, or that an object inherits, throws the error that
    names the field and the class, and leaves the registry as it was; on any
    other name it returns, and the pending map of the class is the old one
    with one thunk more, under that name, the rest of the registry being
    untouched. *)
Lemma Field_duplicate_or_fresh (target : Ctor) (key : string) (r : Registry) :
  (∀ type config,
     is_Some (getFields r (AClass target) !! key) ∨ in_Object_prototype key = true →
     Field type config target key r =
       (inl ("Field " +:+ key +:+ " is already defined in "
               +:+ String_of (AClass target) +:+ "."), r)) ∧
  (∀ type config,
     getFields r (AClass target) !! key = None →
     in_Object_prototype key = false →
     ∃ r' th,
       Field type config target key r = (inr tt, r') ∧
       getFields r' (AClass target) = <[key := th]> (getFields r (AClass target)) ∧
       size (getFields r' (AClass target)) = S (size (getFields r (AClass target))) ∧
       same_but_fields target r r') ∧
  (∀ type config,
     is_Some (getInputFields r (AClass target) !! key) ∨
     in_Object_prototype key = true →
     InputField type config target key r =
       (inl ("Field " +:+ key +:+ " is already defined in "
               +:+ String_of (AClass target) +:+ "."), r)) ∧
  (∀ type config,
     getInputFields r (AClass target) !! key = None →
     in_Object_prototype key = false →
     ∃ r' th,
       InputField type config target key r = (inr tt, r') ∧
       getInputFields r' (AClass target) =
         <[key := th]> (getInputFields r (AClass target)) ∧
       size (getInputFields r' (AClass target)) =
         S (size (getInputFields r (AClass target))) ∧
       same_but_inputFields target r r').
Proof.
  split; [|split; [|split]].
  - intros type config [Hk|Hk]; [apply Field_duplicate, Hk | apply Field_inherited, Hk].
  - intros type config Hk Hown.
    destruct (Field_fresh type config target key r Hk Hown)
      as (r' & Hrun & Hget & Hsame).
    eexists r', _. split; [exact Hrun|]. split; [exact Hget|]. split; [|exact Hsame].
    rewrite Hget. apply map_size_insert_None, Hk.
  - intros type config [Hk|Hk];
      [apply InputField_duplicate, Hk | apply InputField_inherited, Hk].
  - intros type config Hk Hown.
    destruct (InputField_fresh type config target key r Hk Hown)
      as (r' & Hrun & Hget & Hsame).
    eexists r', _. split; [exact Hrun|]. split; [exact Hget|]. split; [|exact Hsame].
    rewrite Hget. apply map_size_insert_None, Hk.
Qed.

(** ** Mounting a field *)

Lemma mountArgument_unfold (r : Registry) (argKey : string) (arg : Any) :
  arg ≠ AUndefined →
  mountArgument r argKey arg =
  match getGraphQLType r (argument_argType arg) with
  | inl e => inl e
  | inr newType =>
      if isInputType newType
      then inr {| arg_type := newType;
                  arg_description := argument_extra arg;
                  arg_defaultValue := None |}
      else inl (argument_error argKey (argument_argType arg))
  end.
Proof.
  intros Hdef.
  assert (Hbody : mountArgument r argKey arg =
            let '(extra, argType) :=
              if is_argument_record arg
              then (prop_description arg, prop_type arg)
              else (None, arg) in
            newType ← getGraphQLType r argType;
            if negb (isInputType newType)
            then throw (argument_error argKey argType)
            else mret {| arg_type := newType; arg_description := extra;
                         arg_defaultValue := None |}).
  { destruct arg; [congruence | reflexivity..]. }
  rewrite Hbody. unfold argument_argType, argument_extra.
  destruct (is_argument_record arg); simpl;
    (destruct (getGraphQLType r _) as [e|t]; simpl; [reflexivity|]);
    destruct (isInputType t); reflexivity.
Qed.

Lemma mountArgument_undefined (r : Registry) (argKey : string) :
  mountArgument r argKey AUndefined = inl (TypeError_undefined "type").
Proof. reflexivity. Qed.

(** A [{type, description, defaultValue}] record is told from a bare type by
    its [type] property. *)
Lemma is_argument_record_record (type : Any) (description : option string)
    (defaultValue : option Value) :
  type ≠ AUndefined →
  is_argument_record (Argument type description defaultValue) = true.
Proof. intros Hty. destruct type; simpl; [congruence | reflexivity..]. Qed.

Lemma mountArgument_record (r : Registry) (argKey : string) (type : Any)
    (description : option string) (defaultValue : option Value) (t : GraphQLType) :
  type ≠ AUndefined →
  getGraphQLType r type = inr t →
  isInputType t = true →
  mountArgument r argKey (Argument type description defaultValue) =
    inr {| arg_type := t; arg_description := description; arg_defaultValue := None |}.
Proof.
  intros Hty Hres Hin. rewrite mountArgument_unfold by discriminate.
  unfold argument_argType, argument_extra.
  rewrite is_argument_record_record by exact Hty. simpl.
  rewrite Hres, Hin. reflexivity.
Qed.

Lemma mountArgument_bare (r : Registry) (argKey : string) (arg : Any) (t : GraphQLType) :
  arg ≠ AUndefined →
  is_argument_record arg = false →
  getGraphQLType r arg = inr t →
  isInputType t = true →
  mountArgument r argKey arg =
    inr {| arg_type := t; arg_description := None; arg_defaultValue := None |}.
Proof.
  intros Hdef Hbare Hres Hin. rewrite mountArgument_unfold by exact Hdef.
  unfold argument_argType, argument_extra. rewrite Hbare, Hres, Hin. reflexivity.
Qed.

(** No mounted argument carries a default value. *)
Lemma mountArgument_defaultValue (r : Registry) (argKey : string) (arg : Any)
    (cfg : GraphQLArgumentConfig) :
  mountArgument r argKey arg = inr cfg → arg_defaultValue cfg = None.
Proof.
  destruct arg; [discriminate|..];
    (rewrite mountArgument_unfold by discriminate;
     destruct (getGraphQLType r _) as [e|newType]; [discriminate|];
     destruct (isInputType newType); [|discriminate];
     intros [= <-]; reflexivity).
Qed.

Lemma mountArgument_is_input (r : Registry) (argKey : string) (arg : Any) :
  argument_is_input r (argKey, arg) → ∃ cfg, mountArgument r argKey arg = inr cfg.
Proof.
  intros (Hdef & t & Hres & Hin). simpl in Hdef, Hres.
  rewrite mountArgument_unfold by exact Hdef.
  rewrite Hres, Hin. eexists. reflexivity.
Qed.

Lemma mountArguments_all_input (r : Registry) (args : list (string * Any))
    (fieldArgs : gmap string GraphQLArgumentConfig) :
  Forall (argument_is_input r) args →
  ∃ m, mountArguments r args fieldArgs = inr m.
Proof.
  intros Hall. revert fieldArgs.
  induction Hall as [|[k arg] rest Hhd _ IH]; intros fieldArgs; simpl.
  - eexists. reflexivity.
  - destruct (mountArgument_is_input r k arg Hhd) as [cfg ->]. simpl. apply IH.
Qed.

(** The loop stops at the first entry whose type is not an input type. *)
Lemma mountArguments_first_offender (r : Registry) (l1 l2 : list (string * Any))
    (argKey : string) (arg : Any) (t : GraphQLType)
    (fieldArgs : gmap string GraphQLArgumentConfig) :
  Forall (argument_is_input r) l1 →
  arg ≠ AUndefined →
  getGraphQLType r (argument_argType arg) = inr t →
  isInputType t = false →
  mountArguments r (l1 ++ (argKey, arg) :: l2) fieldArgs =
    inl (argument_error argKey (argument_argType arg)).
Proof.
  intros Hall Hdef Hres Hin. revert fieldArgs.
  induction Hall as [|[k a] rest Hhd _ IH]; intros fieldArgs; simpl.
  - rewrite mountArgument_unfold by exact Hdef. rewrite Hres, Hin. reflexivity.
  - destruct (mountArgument_is_input r k a Hhd) as [cfg ->]. simpl. apply IH.
Qed.

(** When every entry resolves, the loop throws as soon as some entry is not
    of an input type, and the error names the key of such an entry. *)
Lemma mountArguments_some_offender (r : Registry) (args : list (string * Any))
    (fieldArgs : gmap string GraphQLArgumentConfig) :
  Forall (argument_resolves r) args →
  Exists (argument_is_not_input r) args →
  ∃ entry, entry ∈ args ∧ argument_is_not_input r entry ∧
           mountArguments r args fieldArgs =
             inl (argument_error entry.1 (argument_argType entry.2)).
Proof.
  intros Hall. revert fieldArgs.
  induction Hall as [|[k a] rest (Hdef & t & Hres) _ IH]; intros fieldArgs Hex.
  - inversion Hex.
  - simpl in Hdef, Hres. simpl.
    rewrite mountArgument_unfold by exact Hdef. rewrite Hres.
    destruct (isInputType t) eqn:Hin.
    + assert (Hrest : Exists (argument_is_not_input r) rest).
      { apply Exists_cons in Hex as [(t' & Hres' & Hin')|Hrest]; [|exact Hrest].
        simpl in Hres'. congruence. }
      destruct (IH (<[k := {| arg_type := t; arg_description := argument_extra a;
                              arg_defaultValue := None |}]> fieldArgs) Hrest)
        as (entry & Hentry & Hbad & Hrun).
      exists entry. split; [right; exact Hentry|]. split; [exact Hbad | exact Hrun].
    + exists (k, a). split; [left|]. split; [|reflexivity].
      exists t. split; [exact Hres | exact Hin].
Qed.

Lemma runField_unfold (r : Registry) (th : FieldThunk) :
  runField r th =
  match getGraphQLType r (ft_type th) with
  | inl e => inl e
  | inr _type =>
      if isOutputType _type
      then
        match mountArguments r (default [] (fc_args (ft_config th))) ∅ with
        | inl e => inl e
        | inr fieldArgs =>
            inr {| f_args := fieldArgs;
                   f_type := _type;
                   f_description := getDescription (ft_target th) (Some (ft_key th));
                   f_deprecationReason :=
                     getDeprecationReason (ft_target th) (Some (ft_key th));
                   f_resolve := fieldResolver (proto_get (ft_target th) (ft_key th)) |}
        end
      else inl "Type is not output"
  end.
Proof.
  unfold runField. destruct (getGraphQLType r _) as [e|t]; simpl; [reflexivity|].
  destruct (isOutputType t); simpl; [|reflexivity].
  destruct (mountArguments _ _ _); reflexivity.
Qed.

Lemma runInputField_unfold (r : Registry) (th : InputFieldThunk) :
  runInputField r th =
  match getGraphQLType r (ift_type th) with
  | inl e => inl e
  | inr _type =>
      if isInputType _type
      then
        inr {| if_type := _type;
               if_description :=
                 or_opt_string (ifc_description (ift_config th))
                   (getDescription (ift_target th) (Some (ift_key th)));
               if_deprecationReason :=
                 or_opt_string (ifc_deprecationReason (ift_config th))
                   (getDeprecationReason (ift_target th) (Some (ift_key th)));
               if_defaultValue :=
                 or_value (ifc_defaultValue (ift_config th))
                   (proto_get (ift_target th) (ift_key th)) |}
      else inl "Type is not input"
  end.
Proof.
  unfold runInputField. destruct (getGraphQLType r _) as [e|t]; simpl; [reflexivity|].
  destruct (isInputType t); reflexivity.
Qed.

(** C4: invoking the thunk of a [Field] whose type resolves to a type that is
    not an output type throws 'Type is not output'; invoking the thunk of an
    [InputField] whose type resolves to a type that is not an input type
    throws 'Type is not input'; invoking the thunk of a [Field] of an output
    type throws, at the first argument whose type resolves to a type that is
    not an input type, the error that names the key of that argument (so,
    when every argument resolves and some are not input types, the error
    names one of these); and when the types are of the right kinds the thunks
    return. *)
Theorem C4_wrong_type_kind_throws (r : Registry) :
  (∀ th t,
     getGraphQLType r (ft_type th) = inr t →
     isOutputType t = false →
     runField r th = inl "Type is not output") ∧
  (∀ th t,
     getGraphQLType r (ift_type th) = inr t →
     isInputType t = false →
     runInputField r th = inl "Type is not input") ∧
  (∀ th t l1 argKey arg l2 t',
     getGraphQLType r (ft_type th) = inr t →
     isOutputType t = true →
     fc_args (ft_config th) = Some (l1 ++ (argKey, arg) :: l2) →
     Forall (argument_is_input r) l1 →
     arg ≠ AUndefined →
     getGraphQLType r (argument_argType arg) = inr t' →
     isInputType t' = false →
     runField r th =
       inl ("Field argument " +:+ argKey +:+ " expected to be Input type. Received: "
              +:+ String_of (argument_argType arg) +:+ ".")) ∧
  (∀ th t args,
     getGraphQLType r (ft_type th) = inr t →
     isOutputType t = true →
     fc_args (ft_config th) = Some args →
     Forall (argument_resolves r) args →
     Exists (argument_is_not_input r) args →
     ∃ argKey arg,
       (argKey, arg) ∈ args ∧ argument_is_not_input r (argKey, arg) ∧
       runField r th =
         inl ("Field argument " +:+ argKey +:+ " expected to be Input type. Received: "
                +:+ String_of (argument_argType arg) +:+ ".")) ∧
  (∀ th t,
     getGraphQLType r (ft_type th) = inr t →
     isOutputType t = true →
     Forall (argument_is_input r) (default [] (fc_args (ft_config th))) →
     ∃ cfg, runField r th = inr cfg ∧ f_type cfg = t) ∧
  (∀ th t,
     getGraphQLType r (ift_type th) = inr t →
     isInputType t = true →
     ∃ cfg, runInputField r th = inr cfg ∧ if_type cfg = t).
Proof.
  split; [|split; [|split; [|split; [|split]]]].
  - intros th t Hres Hout. rewrite runField_unfold, Hres, Hout. reflexivity.
  - intros th t Hres Hin. rewrite runInputField_unfold, Hres, Hin. reflexivity.
  - intros th t l1 argKey arg l2 t' Hres Hout Hargs Hl1 Hdef Hres' Hin.
    rewrite runField_unfold, Hres, Hout, Hargs. simpl.
    rewrite (mountArguments_first_offender r l1 l2 argKey arg t' ∅ Hl1 Hdef Hres' Hin).
    reflexivity.
  - intros th t args Hres Hout Hargs Hall Hex.
    destruct (mountArguments_some_offender r args ∅ Hall Hex)
      as ([argKey arg] & Hentry & Hbad & Hrun).
    exists argKey, arg. split; [exact Hentry|]. split; [exact Hbad|].
    rewrite runField_unfold, Hres, Hout, Hargs. simpl. rewrite Hrun. reflexivity.
  - intros th t Hres Hout Hargs. rewrite runField_unfold, Hres, Hout.
    destruct (mountArguments_all_input r _ ∅ Hargs) as [m ->].
    eexists. split; reflexivity.
  - intros th t Hres Hin. rewrite runInputField_unfold, Hres, Hin.
    eexists. split; reflexivity.
Qed.

(** C10: the resolver of a mounted field calls the value found at the
    decorated property, when it is a function, with [this] bound to the root
    and with the arguments [(args, context, info)], and returns its result;
    otherwise it is the library's [defaultFieldResolver]. *)
Theorem C10_mounted_resolver (r : Registry) (th : FieldThunk) (cfg : GraphQLFieldConfig) :
  runField r th = inr cfg →
  let targetResolver := proto_get (ft_target th) (ft_key th) in
  (is_function targetResolver = true →
   ∀ root args context info,
     f_resolve cfg root args context info =
       js_call targetResolver root [args; context; info]) ∧
  (is_function targetResolver = false → f_resolve cfg = defaultFieldResolver).
Proof.
  intros Hrun targetResolver. rewrite runField_unfold in Hrun.
  destruct (getGraphQLType r _) as [e|t]; [discriminate|].
  destruct (isOutputType t); [|discriminate].
  destruct (mountArguments _ _ _) as [e|fieldArgs]; [discriminate|].
  injection Hrun as <-. simpl. fold targetResolver. unfold fieldResolver.
  split; intros ->; reflexivity.
Qed.

(** ** Interface entries *)







(** C6: decorating a property with [Field(type, config)] resolves and checks
    nothing: whatever the type and the configuration, the only error is the
    one for a name defined already, raised with the registry as it was; when
    the decoration returns, all it has done is to record, under that name in
    the pending map of the class, the thunk that holds the type and the
    configuration as given, the other pending fields of the class and the
    rest of the registry being as before; it does return on every name that
    the pending map does not hold, own or inherited; an unresolvable type or
    a type of the wrong kind shows only when that thunk is invoked. *)
Theorem C6_field_decoration_is_lazy (type : Any) (config : FieldConfig) (target : Ctor)
    (key : string) (r : Registry) :
  let thunk := {| ft_type := type; ft_config := config;
                  ft_target := target; ft_key := key |} in
  (∀ e r', Field type config target key r = (inl e, r') →
     e = duplicate_error key target ∧ r' = r ∧
     (is_Some (getFields r (AClass target) !! key) ∨ in_Object_prototype key = true)) ∧
  (∀ r', Field type config target key r = (inr tt, r') →
     r' = setFields target (<[key := thunk]> (getFields r (AClass target))) r ∧
     getFields r' (AClass target) = <[key := thunk]> (getFields r (AClass target)) ∧
     same_but_fields target r r') ∧
  (getFields r (AClass target) !! key = None →
   in_Object_prototype key = false →
   ∃ r', Field type config target key r = (inr tt, r')) ∧
  (∀ r' e, getGraphQLType r' type = inl e → runField r' thunk = inl e) ∧
  (∀ r' t, getGraphQLType r' type = inr t → isOutputType t = false →
     runField r' thunk = inl "Type is not output").
Proof.
  intros thunk. split; [|split; [|split; [|split]]].
  - intros e r' Hrun. exact (Field_throws _ _ _ _ _ _ _ Hrun).
  - intros r' Hrun. destruct (Field_returns _ _ _ _ _ _ Hrun) as (Hk & Hown & Hset).
    fold thunk in Hset.
    destruct (Field_fresh type config target key r Hk Hown) as (r'' & Hrun' & Hget & Hsame).
    rewrite Hrun in Hrun'. injection Hrun' as <-.
    split; [exact Hset|]. split; [exact Hget | exact Hsame].
  - intros Hk Hown.
    destruct (Field_fresh type config target key r Hk Hown) as (r' & Hrun & _).
    exists r'. exact Hrun.
  - intros r' e Hres. rewrite runField_unfold. simpl. rewrite Hres. reflexivity.
  - intros r' t Hres Hout. rewrite runField_unfold. simpl. rewrite Hres, Hout. reflexivity.
Qed.

(** ** The frame of the class decorators *)

Lemma registered_once_intro (target : Ctor) (type : GraphQLType) (r : Registry) :
  registered_once target type r (setGraphQLType target type r).
Proof.
  split; [reflexivity|]. split; [apply setGraphQLType_lookup|].
  split; [|split; reflexivity].
  intros c Hc. unfold setGraphQLType. simpl. apply lookup_insert_ne. congruence.
Qed.

Lemma ObjectType_frame (opts : ObjectTypeConfig) (target c : Ctor) (r r' : Registry) :
  ObjectType opts target r = (inr c, r') →
  c = target ∧
  ∃ interfaces mounted type,
    GraphQLObjectType (ObjectType_config opts target interfaces mounted) = inr type ∧
    registered_once target type r r'.
Proof.
  rewrite ObjectType_unfold.
  destruct (mapM _ _) as [e|tys]; [discriminate|]. simpl.
  destruct (assertFields _ _) as [e|[]]; [discriminate|].
  destruct (mountFields _ _) as [e|mounted]; [discriminate|].
  destruct (GraphQLObjectType _) as [e|type] eqn:Hnew; [discriminate|].
  intros [= <- <-]. split; [reflexivity|].
  exists tys, mounted, type. split; [exact Hnew | apply registered_once_intro].
Qed.

Lemma InterfaceType_frame (opts : InterfaceTypeConfig) (target c : Ctor)
    (r r' : Registry) :
  InterfaceType opts target r = (inr c, r') →
  c = target ∧
  ∃ mounted type,
    GraphQLInterfaceType (InterfaceType_config opts target mounted) = inr type ∧
    registered_once target type r r'.
Proof.
  unfold InterfaceType. unfold_decorator.
  simpl.
  destruct (assertFields _ _) as [e|[]]; [discriminate|].
  destruct (mountFields _ _) as [e|mounted]; [discriminate|].
  destruct (GraphQLInterfaceType _) as [e|type] eqn:Hnew; [discriminate|].
  intros [= <- <-]. split; [reflexivity|].
  exists mounted, type. split; [exact Hnew | apply registered_once_intro].
Qed.

Lemma InputObjectType_frame (opts : InputObjectTypeConfig) (target c : Ctor)
    (r r' : Registry) :
  InputObjectType opts target r = (inr c, r') →
  c = target ∧
  ∃ mounted type,
    GraphQLInputObjectType (InputObjectType_config opts target mounted) = inr type ∧
    registered_once target type r r'.
Proof.
  unfold InputObjectType. unfold_decorator.
  simpl.
  destruct (assertInputFields _ _) as [e|[]]; [discriminate|].
  destruct (mountInputFields _ _) as [e|mounted]; [discriminate|].
  destruct (GraphQLInputObjectType _) as [e|type] eqn:Hnew; [discriminate|].
  intros [= <- <-]. split; [reflexivity|].
  exists mounted, type. split; [exact Hnew | apply registered_once_intro].
Qed.

Lemma EnumType_unfold (opts : EnumTypeConfig) (target : Ctor) (r : Registry) :
  EnumType opts target r =
  match GraphQLEnumType (EnumType_config opts target) with
  | inl e => (inl e, r)
  | inr type => (inr target, setGraphQLType target type r)
  end.
Proof.
  unfold EnumType. unfold_decorator.
  destruct (GraphQLEnumType _); reflexivity.
Qed.

Lemma EnumType_frame (opts : EnumTypeConfig) (target c : Ctor) (r r' : Registry) :
  EnumType opts target r = (inr c, r') →
  c = target ∧
  ∃ type,
    GraphQLEnumType (EnumType_config opts target) = inr type ∧
    registered_once target type r r'.
Proof.
  rewrite EnumType_unfold.
  destruct (GraphQLEnumType _) as [e|type] eqn:Hnew; [discriminate|].
  intros [= <- <-]. split; [reflexivity|].
  exists type. split; [reflexivity | apply registered_once_intro].
Qed.

(** C7: a class decorator that does not throw returns the constructor it was
    applied to, and the registry after it is the registry before it with one
    [setGraphQLType] that gives the class the type the library has just
    built from the configuration of the decorator: the pending fields and
    the types of the other classes are as before. *)
Theorem C7_class_decorators_register_once (target : Ctor) (r : Registry) :
  (∀ opts c r', ObjectType opts target r = (inr c, r') →
     c = target ∧
     ∃ interfaces mounted type,
       GraphQLObjectType (ObjectType_config opts target interfaces mounted) = inr type ∧
       registered_once target type r r') ∧
  (∀ opts c r', InterfaceType opts target r = (inr c, r') →
     c = target ∧
     ∃ mounted type,
       GraphQLInterfaceType (InterfaceType_config opts target mounted) = inr type ∧
       registered_once target type r r') ∧
  (∀ opts c r', InputObjectType opts target r = (inr c, r') →
     c = target ∧
     ∃ mounted type,
       GraphQLInputObjectType (InputObjectType_config opts target mounted) = inr type ∧
       registered_once target type r r') ∧
  (∀ opts c r', EnumType opts target r = (inr c, r') →
     c = target ∧
     ∃ type,
       GraphQLEnumType (EnumType_config opts target) = inr type ∧
       registered_once target type r r').
Proof.
  split; [|split; [|split]]; intros opts c r'.
  - apply ObjectType_frame.
  - apply InterfaceType_frame.
  - apply InputObjectType_frame.
  - apply EnumType_frame.
Qed.

(** C8: the schema object built from the root classes prints as the
    library's printer prints the assembled schema, and executes a query as
    the library's executor does on that schema. *)
Theorem C8_schema_delegates (r : Registry) (config : SchemaConfig) (s : Schema) :
  new_Schema r config = inr s →
  ∃ g, assembled r config = inr g ∧
       Schema_toString s = printSchema g ∧
       ∀ queryString, Schema_execute s queryString = graphql g queryString.
Proof.
  unfold new_Schema. destruct (assembled r config) as [e|g]; simpl; [discriminate|].
  intros [= <-]. exists g. split; [reflexivity|]. split; [reflexivity|].
  intros queryString. reflexivity.
Qed.

(** ** The values of an enum *)

Lemma enum_values_fold (target : Ctor) (names : list string)
    (values : gmap string GraphQLEnumValueConfig) (k : string) :
  foldl (fun values name => <[name := enumValue target name]> values) values names !! k =
  if decide (k ∈ names) then Some (enumValue target k) else values !! k.
Proof.
  revert values. induction names as [|name names IH]; intros values; cbn [foldl].
  - destruct (decide (k ∈ [])) as [Hin|_]; [inversion Hin | reflexivity].
  - rewrite IH.
    destruct (decide (k ∈ names)) as [Hin|Hout],
             (decide (k ∈ name :: names)) as [Hin'|Hout'].
    + reflexivity.
    + exfalso. apply Hout'. right. exact Hin.
    + apply elem_of_cons in Hin' as [->|Hin']; [apply lookup_insert_eq | contradiction].
    + apply lookup_insert_ne. intros ->. apply Hout'. left.
Qed.

Lemma EnumType_values_lookup (target : Ctor) (k : string) :
  EnumType_values target !! k =
  if decide (k ∈ getStaticProperties target) then Some (enumValue target k) else None.
Proof. unfold EnumType_values. rewrite enum_values_fold, lookup_empty. reflexivity. Qed.

Lemma elem_of_getStaticProperties (target : Ctor) (k : string) :
  k ∈ getStaticProperties target ↔
  k ∈ getOwnPropertyNames target ∧ k ∉ BaseClassProperties.
Proof. unfold getStaticProperties. rewrite list_elem_of_filter. tauto. Qed.

(** C9, amended: when the own properties of a plain class are [length],
    [name] and [prototype], the enum that [EnumType] registers for a class is
    the one the library builds from a configuration whose value map holds
    exactly the own static properties of the class other than these three,
    each with the value of the static property and the description and
    deprecation reason of the metadata of that property; the enum is named
    [opts.name] when it is given and is not the empty string, and the name of
    the class otherwise. *)
Theorem C9_enum_type_registered (opts : EnumTypeConfig) (target : Ctor) (r : Registry) :
  (∀ name, name ∈ BaseClassProperties ↔ name ∈ ["length"; "name"; "prototype"]) →
  let cfg := EnumType_config opts target in
  (∀ type, GraphQLEnumType cfg = inr type →
     EnumType opts target r = (inr target, setGraphQLType target type r)) ∧
  (∀ c r', EnumType opts target r = (inr c, r') →
     ∃ type, GraphQLEnumType cfg = inr type ∧ reg_types r' !! target = Some type) ∧
  (∀ k, k ∈ getOwnPropertyNames target →
        k ∉ ["length"; "name"; "prototype"] →
        et_values cfg !! k =
          Some {| ev_value := static_get target k;
                  ev_description := getDescription target (Some k);
                  ev_deprecationReason := getDeprecationReason target (Some k) |}) ∧
  (∀ k, is_Some (et_values cfg !! k) →
        k ∈ getOwnPropertyNames target ∧ k ∉ ["length"; "name"; "prototype"]) ∧
  (∀ name, etc_name opts = Some name → name ≠ EmptyString → et_name cfg = name) ∧
  (etc_name opts = None ∨ etc_name opts = Some EmptyString →
     et_name cfg = class_name target).
Proof.
  intros Hbase cfg. split; [|split; [|split; [|split; [|split]]]].
  - intros type Hnew. rewrite EnumType_unfold. fold cfg. rewrite Hnew. reflexivity.
  - intros c r' Hrun. rewrite EnumType_unfold in Hrun. fold cfg in Hrun.
    destruct (GraphQLEnumType cfg) as [e|type]; [discriminate|].
    injection Hrun as <- <-. exists type. split; [reflexivity|].
    apply setGraphQLType_lookup.
  - intros k Hown Hk. simpl. rewrite EnumType_values_lookup.
    rewrite decide_True; [reflexivity|].
    apply elem_of_getStaticProperties. split; [exact Hown|].
    rewrite Hbase. exact Hk.
  - intros k [v Hv]. simpl in Hv. rewrite EnumType_values_lookup in Hv.
    destruct (decide (k ∈ getStaticProperties target)) as [Hin|]; [|discriminate].
    apply elem_of_getStaticProperties in Hin as [Hown Hk].
    split; [exact Hown|]. rewrite <- Hbase. exact Hk.
  - intros name Hname Hne. simpl. unfold or_string. rewrite Hname.
    rewrite decide_False by exact Hne. reflexivity.
  - intros [Hname|Hname]; simpl; unfold or_string; rewrite Hname; reflexivity.
Qed.

End Properties.

(** * The properties at work on the Star Wars classes *)

Section StarWars.
Import Demo.

(** C3: [@Field(String, {args: {id: Argument(String, "The id", "1000")}})]
    mounts the argument [id] with the resolved type and the description of
    the record, and without its default value. *)
Theorem C3_argument_default_value_is_dropped :
  ∃ cfg,
    runField Registry_empty (thunk Demo.String human_config Query "human") = inr cfg ∧
    prop_type (Argument Demo.String (Some "The id") (Some (VString "1000"))) = Demo.String ∧
    f_args cfg !! "id" =
      Some {| arg_type := TScalar "String";
              arg_description := Some "The id";
              arg_defaultValue := None |}.
Proof.
  eexists. split; [vm_compute; reflexivity|]. split; [reflexivity|].
  vm_compute. reflexivity.
Qed.

(** [Human] implements [Character]: its own [name] wins, [id] is inherited. *)
Lemma C1_witness :
  otc_interfaces human_opts = Some [AClass Character] ∧
  ObjectType_fields registry_human human_opts Human !! "homePlanet" =
    Some (thunk Demo.String FieldConfig_empty Human "homePlanet") ∧
  ObjectType_fields registry_human human_opts Human !! "name" =
    Some (thunk ID FieldConfig_empty Human "name") ∧
  ObjectType_fields registry_human human_opts Human !! "id" =
    Some (thunk ID FieldConfig_empty Character "id") ∧
  ObjectType_fields registry_human human_opts Human !! "age" = None ∧
  ∃ cfg type,
    mountFields registry_human (ObjectType_fields registry_human human_opts Human) =
      inr (ot_fields cfg) ∧
    GraphQLObjectType cfg = inr type ∧
    reg_types (after (ObjectType human_opts Human) registry_human) !! Human = Some type.
Proof.
  destruct (C1_object_type_fields human_opts Human registry_human [AClass Character]
              eq_refl) as (Hown & Hinherited & Habsent & Hbuilt).
  split; [reflexivity|].
  split; [apply Hown; vm_compute; reflexivity|].
  split; [apply Hown; vm_compute; reflexivity|].
  split.
  { apply (Hinherited "id" _ [] (AClass Character) []).
    - reflexivity.
    - vm_compute. reflexivity.
    - intros i Hi. inversion Hi.
    - vm_compute. reflexivity. }
  split.
  { apply Habsent. split; [vm_compute; reflexivity|].
    intros i Hi. apply list_elem_of_singleton in Hi as ->. vm_compute. reflexivity. }
  apply (Hbuilt Human). vm_compute. reflexivity.
Defined.

(** C2: the decorators test the name with [key in fields], which also holds
    of the names that the pending map, an ordinary object, inherits.  So
    [Field(String)] on a method [toString] of [Droid], a class that has no
    field at all, throws that the field is already defined, and so does
    [InputField(String)]; nothing is recorded.  A name that is not inherited,
    [homePlanet], is recorded on the same registry, and is refused the
    second time. *)
Theorem C2_inherited_name_is_taken_for_a_duplicate :
  getFields Registry_empty (AClass Droid) = ∅ ∧
  Field Demo.String FieldConfig_empty Droid "toString" Registry_empty =
    (inl "Field toString is already defined in class Droid.", Registry_empty) ∧
  getInputFields Registry_empty (AClass Droid) = ∅ ∧
  InputField Demo.String
    {| ifc_defaultValue := None; ifc_description := None; ifc_deprecationReason := None |}
    Droid "toString" Registry_empty =
    (inl "Field toString is already defined in class Droid.", Registry_empty) ∧
  (∃ r',
     Field Demo.String FieldConfig_empty Droid "homePlanet" Registry_empty =
       (inr tt, r') ∧
     getFields r' (AClass Droid) =
       {[ "homePlanet" := thunk Demo.String FieldConfig_empty Droid "homePlanet" ]} ∧
     Field Demo.String FieldConfig_empty Droid "homePlanet" r' =
       (inl "Field homePlanet is already defined in class Droid.", r')).
Proof.
  split; [reflexivity|].
  split; [exact (Field_inherited _ _ Droid "toString" _ eq_refl)|].
  split; [reflexivity|].
  split; [exact (InputField_inherited _ _ Droid "toString" _ eq_refl)|].
  destruct (Field_fresh Demo.String FieldConfig_empty Droid "homePlanet" Registry_empty)
    as (r' & Hrun & Hget & _); [reflexivity | reflexivity |].
  exists r'. split; [exact Hrun|]. split.
  - rewrite Hget. reflexivity.
  - refine (Field_duplicate _ _ Droid "homePlanet" r' _).
    rewrite Hget, lookup_insert_eq. eexists. reflexivity.
Qed.

(** An input object as the type of a field, an interface as the type of an
    input field, an interface as the type of an argument. *)
Lemma C4_witness :
  runField registry_review (thunk (AClass ReviewInput) FieldConfig_empty Query "review") =
    inl "Type is not output" ∧
  runInputField registry_review
    {| ift_type := AClass Character;
       ift_config := {| ifc_defaultValue := None; ifc_description := None;
                        ifc_deprecationReason := None |};
       ift_target := ReviewInput; ift_key := "who" |} = inl "Type is not input" ∧
  runField registry_review (thunk Demo.String bad_argument_config Character "name") =
    inl "Field argument of expected to be Input type. Received: class Character." ∧
  ∃ cfg,
    runField registry_review (thunk (AClass Character) hero_config Query "hero") = inr cfg ∧
    f_type cfg = TInterface "Character" ["id"; "name"; "friends"].
Proof.
  destruct (C4_wrong_type_kind_throws registry_review)
    as (Hout & Hin & Harg & _ & Hok & _).
  split; [|split; [|split]].
  - apply (Hout _ (TInputObject "ReviewInput" ["stars"])); vm_compute; reflexivity.
  - apply (Hin _ (TInterface "Character" ["id"; "name"; "friends"]));
      vm_compute; reflexivity.
  - refine (Harg (thunk Demo.String bad_argument_config Character "name")
              (TScalar "String") [("id", Demo.String)] "of" (AClass Character)
              [("n", AClass Human)] (TInterface "Character" ["id"; "name"; "friends"])
              _ _ _ _ _ _ _).
    + vm_compute. reflexivity.
    + reflexivity.
    + reflexivity.
    + constructor; [|constructor].
      split; [discriminate|].
      exists (TScalar "String"). split; vm_compute; reflexivity.
    + discriminate.
    + vm_compute. reflexivity.
    + reflexivity.
  - apply Hok.
    + vm_compute. reflexivity.
    + reflexivity.
    + constructor; [|constructor].
      split; [discriminate|].
      eexists. split; vm_compute; reflexivity.
Defined.


(** [@Field(Droid) droid] on [Query] before [Droid] is decorated. *)
Lemma C6_witness :
  getGraphQLType Registry_empty (AClass Droid) =
    inl "The target Droid have no GraphQL type associated to it." ∧
  (∃ r',
     Field (AClass Droid) FieldConfig_empty Query "droid" Registry_empty = (inr tt, r') ∧
     getFields r' (AClass Query) =
       {[ "droid" := thunk (AClass Droid) FieldConfig_empty Query "droid" ]} ∧
     same_but_fields Query Registry_empty r') ∧
  runField Registry_empty (thunk (AClass Droid) FieldConfig_empty Query "droid") =
    inl "The target Droid have no GraphQL type associated to it.".
Proof.
  destruct (C6_field_decoration_is_lazy (AClass Droid) FieldConfig_empty Query "droid"
              Registry_empty) as (_ & Hdone & Hfresh & Hlater & _).
  split; [reflexivity|]. split.
  - destruct Hfresh as (r' & Hrun); [reflexivity | reflexivity |].
    destruct (Hdone r' Hrun) as (_ & Hget & Hsame).
    exists r'. split; [exact Hrun|]. split; [|exact Hsame].
    rewrite Hget. reflexivity.
  - apply Hlater. reflexivity.
Defined.

(** [ObjectType] on [Human], [InputObjectType] on [ReviewInput], [EnumType]
    on [Episode]. *)
Lemma C7_witness :
  registered_once Human
    (TObject "Human" [TInterface "Character" ["id"; "name"; "friends"]]
       ["id"; "name"; "friends"; "homePlanet"])
    registry_human (after (ObjectType human_opts Human) registry_human) ∧
  registered_once ReviewInput (TInputObject "ReviewInput" ["stars"])
    (after (InputField Demo.String
              {| ifc_defaultValue := None; ifc_description := None;
                 ifc_deprecationReason := None |}
              ReviewInput "stars") registry_human)
    registry_review ∧
  registered_once Episode
    (TEnum "Episode" [("EMPIRE", VNumber 5); ("NEWHOPE", VNumber 4); ("JEDI", VNumber 6)])
    Registry_empty
    (after (EnumType {| etc_name := None; etc_description := None |} Episode)
       Registry_empty).
Proof.
  destruct (C7_class_decorators_register_once Human registry_human) as (Hobject & _).
  destruct (C7_class_decorators_register_once ReviewInput
              (after (InputField Demo.String
                        {| ifc_defaultValue := None; ifc_description := None;
                           ifc_deprecationReason := None |}
                        ReviewInput "stars") registry_human))
    as (_ & _ & Hinput & _).
  destruct (C7_class_decorators_register_once Episode Registry_empty)
    as (_ & _ & _ & Henum).
  split; [|split].
  - destruct (Hobject human_opts Human
                (after (ObjectType human_opts Human) registry_human))
      as (_ & interfaces & mounted & type & Hnew & Honce).
    { vm_compute. reflexivity. }
    destruct Honce as (Hset & Hget & Hrest).
    vm_compute in Hget. injection Hget as <-.
    split; [exact Hset|]. split; [vm_compute; reflexivity | exact Hrest].
  - destruct (Hinput review_opts ReviewInput registry_review)
      as (_ & mounted & type & Hnew & Honce).
    { vm_compute. reflexivity. }
    destruct Honce as (Hset & Hget & Hrest).
    vm_compute in Hget. injection Hget as <-.
    split; [exact Hset|]. split; [vm_compute; reflexivity | exact Hrest].
  - destruct (Henum {| etc_name := None; etc_description := None |} Episode
                (after (EnumType {| etc_name := None; etc_description := None |} Episode)
                   Registry_empty))
      as (_ & type & Hnew & Honce).
    { vm_compute. reflexivity. }
    destruct Honce as (Hset & Hget & Hrest).
    vm_compute in Hget. injection Hget as <-.
    split; [exact Hset|]. split; [vm_compute; reflexivity | exact Hrest].
Defined.

(** [new Schema({query: Query})] *)
Lemma C8_witness :
  new_Schema registry_query {| query := AClass Query; mutation := None |} =
    inr {| schema := (TObject "Query" [] ["hero"], None) |} ∧
  ∃ g,
    assembled registry_query {| query := AClass Query; mutation := None |} = inr g ∧
    Schema_toString {| schema := (TObject "Query" [] ["hero"], None) |} = printSchema g ∧
    ∀ queryString,
      Schema_execute {| schema := (TObject "Query" [] ["hero"], None) |} queryString =
        graphql g queryString.
Proof.
  assert (Hnew : new_Schema registry_query {| query := AClass Query; mutation := None |} =
                 inr {| schema := (TObject "Query" [] ["hero"], None) |}).
  { vm_compute. reflexivity. }
  split; [exact Hnew|].
  exact (C8_schema_delegates registry_query _ _ Hnew).
Defined.

(** [EnumType({name: "Ep"})] on [Episode]. *)
Lemma C9_witness :
  (∀ name, name ∈ BaseClassProperties ↔ name ∈ ["length"; "name"; "prototype"]) ∧
  let opts := {| etc_name := Some "Ep"; etc_description := None |} in
  EnumType opts Episode Registry_empty =
    (inr Episode,
     setGraphQLType Episode
       (TEnum "Ep" [("EMPIRE", VNumber 5); ("NEWHOPE", VNumber 4); ("JEDI", VNumber 6)])
       Registry_empty) ∧
  et_values (EnumType_config opts Episode) !! "JEDI" =
    Some {| ev_value := VNumber 6;
            ev_description := Some "Released in 1983.";
            ev_deprecationReason := None |} ∧
  et_values (EnumType_config opts Episode) !! "length" = None ∧
  et_name (EnumType_config opts Episode) = "Ep".
Proof.
  assert (Hbase : ∀ name : string,
            name ∈ BaseClassProperties ↔ name ∈ ["length"; "name"; "prototype"]).
  { intros name. split; intros Hname; exact Hname. }
  split; [exact Hbase|]. intros opts.
  destruct (C9_enum_type_registered opts Episode Registry_empty Hbase)
    as (Hrun & _ & Hvalues & Honly & Hnamed & _).
  split; [|split; [|split]].
  - apply Hrun. vm_compute. reflexivity.
  - refine (Hvalues "JEDI" _ _).
    + vm_compute. do 5 right. left.
    + intros Hin. vm_compute in Hin. inversion Hin as [|? ? ? Hin1]; subst.
      inversion Hin1 as [|? ? ? Hin2]; subst.
      inversion Hin2 as [|? ? ? Hin3]; subst. inversion Hin3.
  - destruct (et_values (EnumType_config opts Episode) !! "length") as [v|] eqn:Hv;
      [|reflexivity].
    destruct (Honly "length") as [_ Hout]; [eexists; exact Hv|].
    exfalso. apply Hout. left.
  - apply Hnamed; [reflexivity | discriminate].
Defined.

(** C9: with [EnumType({name: ''})] the name is given, and the enum that is
    registered for [Episode] is not named by it. *)
Lemma C9_counterexample_empty_name :
  ¬ ∃ values,
      reg_types (after (EnumType empty_name_opts Episode) Registry_empty) !! Episode =
        Some (TEnum (claimed_enum_name empty_name_opts Episode) values).
Proof.
  intros [values Hregistered]. vm_compute in Hregistered. discriminate Hregistered.
Qed.

(** The method [hero] of [Query], and the data property [name] of
    [Character]. *)
Lemma C10_witness :
  ∃ cfg,
    runField registry_review (thunk (AClass Character) hero_config Query "hero") = inr cfg ∧
    (∀ root args context info,
       f_resolve cfg root args context info =
         VResult "hero" root [args; context; info]) ∧
  ∃ cfg',
    runField registry_review (thunk Demo.String FieldConfig_empty Character "name") =
      inr cfg' ∧
    f_resolve cfg' = defaultFieldResolver.
Proof.
  assert (Hhero : ∃ cfg,
            runField registry_review (thunk (AClass Character) hero_config Query "hero") =
              inr cfg).
  { eexists. vm_compute. reflexivity. }
  assert (Hname : ∃ cfg,
            runField registry_review (thunk Demo.String FieldConfig_empty Character "name") =
              inr cfg).
  { eexists. vm_compute. reflexivity. }
  destruct Hhero as [cfg Hhero]. destruct Hname as [cfg' Hname].
  exists cfg. split; [exact Hhero|]. split.
  - refine (proj1 (C10_mounted_resolver _ _ _ Hhero) _). reflexivity.
  - exists cfg'. split; [exact Hname|].
    refine (proj2 (C10_mounted_resolver _ _ _ Hname) _). reflexivity.
Defined.

End StarWars.

(** * Further properties of the decorators *)

Section Coverage.
Context `{Carriers} `{!Host} `{!GraphQL} `{!Reflection}.

(** ** Throwing class decorators *)

Lemma InterfaceType_unfold (opts : InterfaceTypeConfig) (target : Ctor) (r : Registry) :
  InterfaceType opts target r =
  let fields := getFields r (AClass target) in
  match assertFields target fields with
  | inl e => (inl e, r)
  | inr _ =>
      match mountFields r fields with
      | inl e => (inl e, r)
      | inr mounted =>
          match GraphQLInterfaceType (InterfaceType_config opts target mounted) with
          | inl e => (inl e, r)
          | inr type => (inr target, setGraphQLType target type r)
          end
      end
  end.
Proof.
  unfold InterfaceType. unfold_decorator. simpl.
  destruct (assertFields _ _) as [e|[]]; [reflexivity|].
  destruct (mountFields _ _) as [e|mounted]; [reflexivity|].
  destruct (GraphQLInterfaceType _) as [e|type]; reflexivity.
Qed.

Lemma InputObjectType_unfold (opts : InputObjectTypeConfig) (target : Ctor)
    (r : Registry) :
  InputObjectType opts target r =
  let fields := getInputFields r (AClass target) in
  match assertInputFields target fields with
  | inl e => (inl e, r)
  | inr _ =>
      match mountInputFields r fields with
      | inl e => (inl e, r)
      | inr mounted =>
          match GraphQLInputObjectType (InputObjectType_config opts target mounted) with
          | inl e => (inl e, r)
          | inr type => (inr target, setGraphQLType target type r)
          end
      end
  end.
Proof.
  unfold InputObjectType. unfold_decorator. simpl.
  destruct (assertInputFields _ _) as [e|[]]; [reflexivity|].
  destruct (mountInputFields _ _) as [e|mounted]; [reflexivity|].
  destruct (GraphQLInputObjectType _) as [e|type]; reflexivity.
Qed.

(** X1: a class decorator that throws has written nothing: the registry is
    the one it started from, and the error is that of one of its steps: the
    validation of an interface entry, [assertFields], [mountFields], or the
    constructor of the library. *)
Theorem X1_throwing_class_decorator_writes_nothing (target : Ctor) (r : Registry) :
  (∀ opts e r', ObjectType opts target r = (inl e, r') →
     r' = r ∧
     (mapM (resolveInterface r) (default [] (otc_interfaces opts)) = inl e ∨
      assertFields target (ObjectType_fields r opts target) = inl e ∨
      mountFields r (ObjectType_fields r opts target) = inl e ∨
      ∃ interfaces mounted,
        GraphQLObjectType (ObjectType_config opts target interfaces mounted) = inl e)) ∧
  (∀ opts e r', InterfaceType opts target r = (inl e, r') →
     r' = r ∧
     (assertFields target (getFields r (AClass target)) = inl e ∨
      mountFields r (getFields r (AClass target)) = inl e ∨
      ∃ mounted,
        GraphQLInterfaceType (InterfaceType_config opts target mounted) = inl e)) ∧
  (∀ opts e r', InputObjectType opts target r = (inl e, r') →
     r' = r ∧
     (assertInputFields target (getInputFields r (AClass target)) = inl e ∨
      mountInputFields r (getInputFields r (AClass target)) = inl e ∨
      ∃ mounted,
        GraphQLInputObjectType (InputObjectType_config opts target mounted) = inl e)) ∧
  (∀ opts e r', EnumType opts target r = (inl e, r') →
     r' = r ∧ GraphQLEnumType (EnumType_config opts target) = inl e).
Proof.
  split; [|split; [|split]]; intros opts e r' Hrun.
  - rewrite ObjectType_unfold in Hrun.
    destruct (mapM _ _) as [e1|tys]; [injection Hrun as <- <-; auto|].
    simpl in Hrun.
    destruct (assertFields _ _) as [e1|[]]; [injection Hrun as <- <-; auto|].
    destruct (mountFields _ _) as [e1|mounted]; [injection Hrun as <- <-; auto|].
    destruct (GraphQLObjectType _) as [e1|type] eqn:Hnew; [|discriminate].
    injection Hrun as <- <-. split; [reflexivity|]. do 3 right. eauto.
  - rewrite InterfaceType_unfold in Hrun. simpl in Hrun.
    destruct (assertFields _ _) as [e1|[]]; [injection Hrun as <- <-; auto|].
    destruct (mountFields _ _) as [e1|mounted]; [injection Hrun as <- <-; auto|].
    destruct (GraphQLInterfaceType _) as [e1|type] eqn:Hnew; [|discriminate].
    injection Hrun as <- <-. split; [reflexivity|]. do 2 right. eauto.
  - rewrite InputObjectType_unfold in Hrun. simpl in Hrun.
    destruct (assertInputFields _ _) as [e1|[]]; [injection Hrun as <- <-; auto|].
    destruct (mountInputFields _ _) as [e1|mounted]; [injection Hrun as <- <-; auto|].
    destruct (GraphQLInputObjectType _) as [e1|type] eqn:Hnew; [|discriminate].
    injection Hrun as <- <-. split; [reflexivity|]. do 2 right. eauto.
  - rewrite EnumType_unfold in Hrun.
    destruct (GraphQLEnumType _) as [e1|type]; [|discriminate].
    injection Hrun as <- <-. split; reflexivity.
Qed.

(** ** An object type without interfaces *)

Lemma spread_empty_l {V : Type} (b : gmap string V) : spread ∅ b = b.
Proof. unfold spread. apply (right_id_L ∅ (∪)). Qed.

(** X2: when [opts.interfaces] is absent or empty, the fields of the object
    type are those of the class and no others, and the type that a successful
    decoration registers is built with an empty list of interfaces from the
    mounting of these fields. *)
Theorem X2_object_type_without_interfaces (opts : ObjectTypeConfig) (target : Ctor)
    (r : Registry) :
  otc_interfaces opts = None ∨ otc_interfaces opts = Some [] →
  ObjectType_fields r opts target = getFields r (AClass target) ∧
  ∀ c r', ObjectType opts target r = (inr c, r') →
    ∃ mounted type,
      mountFields r (getFields r (AClass target)) = inr mounted ∧
      GraphQLObjectType (ObjectType_config opts target [] mounted) = inr type ∧
      r' = setGraphQLType target type r.
Proof.
  intros Hopts.
  assert (Hifaces : default [] (otc_interfaces opts) = []).
  { destruct Hopts as [-> | ->]; reflexivity. }
  assert (Hfields : ObjectType_fields r opts target = getFields r (AClass target)).
  { unfold ObjectType_fields. rewrite Hifaces. apply spread_empty_l. }
  split; [exact Hfields|].
  intros c r' Hrun. rewrite ObjectType_unfold, Hifaces in Hrun. simpl in Hrun.
  rewrite Hfields in Hrun.
  destruct (assertFields _ _) as [e|[]]; [discriminate|].
  destruct (mountFields _ _) as [e|mounted]; [discriminate|].
  destruct (GraphQLObjectType _) as [e|type] eqn:Hnew; [discriminate|].
  injection Hrun as <- <-. exists mounted, type.
  split; [reflexivity|]. split; [exact Hnew | reflexivity].
Qed.

(** ** The place of the pending thunks *)

Lemma thunks_in_place_empty : thunks_in_place Registry_empty.
Proof.
  split; intros c k th Hth; unfold getFields, getInputFields in Hth; simpl in Hth;
    rewrite lookup_empty in Hth; simpl in Hth; rewrite lookup_empty in Hth;
    discriminate.
Qed.

Lemma thunks_in_place_same_fields (r r' : Registry) :
  reg_fields r' = reg_fields r →
  reg_inputFields r' = reg_inputFields r →
  thunks_in_place r → thunks_in_place r'.
Proof.
  intros Hf Hi [Hfields Hinputs]. split; intros c k th Hth.
  - apply Hfields. unfold getFields in *. rewrite <- Hf. exact Hth.
  - apply Hinputs. unfold getInputFields in *. rewrite <- Hi. exact Hth.
Qed.

(** Whatever a class decorator returns, the pending fields are as before. *)
Lemma class_decorators_keep_fields (target : Ctor) (r : Registry) :
  (∀ opts x r', ObjectType opts target r = (x, r') →
     reg_fields r' = reg_fields r ∧ reg_inputFields r' = reg_inputFields r) ∧
  (∀ opts x r', InterfaceType opts target r = (x, r') →
     reg_fields r' = reg_fields r ∧ reg_inputFields r' = reg_inputFields r) ∧
  (∀ opts x r', InputObjectType opts target r = (x, r') →
     reg_fields r' = reg_fields r ∧ reg_inputFields r' = reg_inputFields r) ∧
  (∀ opts x r', EnumType opts target r = (x, r') →
     reg_fields r' = reg_fields r ∧ reg_inputFields r' = reg_inputFields r).
Proof.
  split; [|split; [|split]]; intros opts x r' Hrun.
  - rewrite ObjectType_unfold in Hrun.
    destruct (mapM _ _); [injection Hrun as <- <-; auto|]. simpl in Hrun.
    destruct (assertFields _ _) as [?|[]]; [injection Hrun as <- <-; auto|].
    destruct (mountFields _ _); [injection Hrun as <- <-; auto|].
    destruct (GraphQLObjectType _); injection Hrun as <- <-; auto.
  - rewrite InterfaceType_unfold in Hrun. simpl in Hrun.
    destruct (assertFields _ _) as [?|[]]; [injection Hrun as <- <-; auto|].
    destruct (mountFields _ _); [injection Hrun as <- <-; auto|].
    destruct (GraphQLInterfaceType _); injection Hrun as <- <-; auto.
  - rewrite InputObjectType_unfold in Hrun. simpl in Hrun.
    destruct (assertInputFields _ _) as [?|[]]; [injection Hrun as <- <-; auto|].
    destruct (mountInputFields _ _); [injection Hrun as <- <-; auto|].
    destruct (GraphQLInputObjectType _); injection Hrun as <- <-; auto.
  - rewrite EnumType_unfold in Hrun.
    destruct (GraphQLEnumType _); injection Hrun as <- <-; auto.
Qed.

Lemma Field_keeps_place (type : Any) (config : FieldConfig) (target : Ctor)
    (key : string) (r r' : Registry) (x : Result unit) :
  Field type config target key r = (x, r') →
  thunks_in_place r → thunks_in_place r'.
Proof.
  intros Hrun [Hfields Hinputs]. unfold Field in Hrun.
  destruct (key_in key (getFields r (AClass target))).
  - injection Hrun as <- <-. split; assumption.
  - injection Hrun as <- <-. split; intros c k th Hth.
    + destruct (decide (c = target)) as [->|Hc].
      * rewrite getFields_setFields in Hth.
        destruct (decide (k = key)) as [->|Hne].
        -- rewrite lookup_insert_eq in Hth. injection Hth as <-. split; reflexivity.
        -- rewrite lookup_insert_ne in Hth by congruence. apply Hfields, Hth.
      * rewrite getFields_setFields_ne in Hth by congruence. apply Hfields, Hth.
    + apply Hinputs, Hth.
Qed.

Lemma InputField_keeps_place (type : Any) (config : InputFieldConfig) (target : Ctor)
    (key : string) (r r' : Registry) (x : Result unit) :
  InputField type config target key r = (x, r') →
  thunks_in_place r → thunks_in_place r'.
Proof.
  intros Hrun [Hfields Hinputs]. unfold InputField in Hrun.
  destruct (key_in key (getInputFields r (AClass target))).
  - injection Hrun as <- <-. split; assumption.
  - injection Hrun as <- <-. split; intros c k th Hth.
    + apply Hfields, Hth.
    + destruct (decide (c = target)) as [->|Hc].
      * rewrite getInputFields_setInputFields in Hth.
        destruct (decide (k = key)) as [->|Hne].
        -- rewrite lookup_insert_eq in Hth. injection Hth as <-. split; reflexivity.
        -- rewrite lookup_insert_ne in Hth by congruence. apply Hinputs, Hth.
      * rewrite getInputFields_setInputFields_ne in Hth by congruence.
        apply Hinputs, Hth.
Qed.

(** X3: the registry keeps every pending thunk in its place: when each thunk
    sits under its own key in the map of its own class, it still does after
    any of the six decorators, whether the decorator returns or throws. *)
Theorem X3_thunks_stay_in_place (r : Registry) :
  thunks_in_place r →
  (∀ type config target key x r',
     Field type config target key r = (x, r') → thunks_in_place r') ∧
  (∀ type config target key x r',
     InputField type config target key r = (x, r') → thunks_in_place r') ∧
  (∀ opts target x r', ObjectType opts target r = (x, r') → thunks_in_place r') ∧
  (∀ opts target x r', InterfaceType opts target r = (x, r') → thunks_in_place r') ∧
  (∀ opts target x r', InputObjectType opts target r = (x, r') → thunks_in_place r') ∧
  (∀ opts target x r', EnumType opts target r = (x, r') → thunks_in_place r').
Proof.
  intros Hr. split; [|split; [|split; [|split; [|split]]]].
  - intros type config target key x r' Hrun. exact (Field_keeps_place _ _ _ _ _ _ _ Hrun Hr).
  - intros type config target key x r' Hrun.
    exact (InputField_keeps_place _ _ _ _ _ _ _ Hrun Hr).
  - intros opts target x r' Hrun.
    destruct (class_decorators_keep_fields target r) as (Hkeep & _).
    destruct (Hkeep opts x r' Hrun) as [Hf Hi].
    exact (thunks_in_place_same_fields r r' Hf Hi Hr).
  - intros opts target x r' Hrun.
    destruct (class_decorators_keep_fields target r) as (_ & Hkeep & _).
    destruct (Hkeep opts x r' Hrun) as [Hf Hi].
    exact (thunks_in_place_same_fields r r' Hf Hi Hr).
  - intros opts target x r' Hrun.
    destruct (class_decorators_keep_fields target r) as (_ & _ & Hkeep & _).
    destruct (Hkeep opts x r' Hrun) as [Hf Hi].
    exact (thunks_in_place_same_fields r r' Hf Hi Hr).
  - intros opts target x r' Hrun.
    destruct (class_decorators_keep_fields target r) as (_ & _ & _ & Hkeep).
    destruct (Hkeep opts x r' Hrun) as [Hf Hi].
    exact (thunks_in_place_same_fields r r' Hf Hi Hr).
Qed.

(** ** Where the fields of an object type come from *)

Lemma inherited_fold_Some (r : Registry) (l : list Any) (acc : gmap string FieldThunk)
    (k : string) (th : FieldThunk) :
  foldl (fun acc iface => spread acc (getFields r iface)) acc l !! k = Some th →
  acc !! k = Some th ∨ ∃ i, i ∈ l ∧ getFields r i !! k = Some th.
Proof.
  revert acc. induction l as [|i l IH]; intros acc; simpl; [auto|].
  intros Hk. destruct (IH _ Hk) as [Hacc|(j & Hj & Hth)].
  - rewrite lookup_spread in Hacc.
    destruct (getFields r i !! k) as [th'|] eqn:Hi.
    + injection Hacc as ->. right. exists i. split; [left | exact Hi].
    + left. exact Hacc.
  - right. exists j. split; [right; exact Hj | exact Hth].
Qed.

Lemma allInterfaceFields_Some (r : Registry) (l : list Any) (k : string)
    (th : FieldThunk) :
  allInterfaceFields r l !! k = Some th →
  ∃ i, i ∈ l ∧ getFields r i !! k = Some th.
Proof.
  intros Hk. destruct (inherited_fold_Some r l ∅ k th Hk) as [Hacc|Hi]; [|exact Hi].
  rewrite lookup_empty in Hacc. discriminate.
Qed.

Lemma getFields_Some_class (r : Registry) (a : Any) (k : string) (th : FieldThunk) :
  getFields r a !! k = Some th → ∃ c, a = AClass c.
Proof.
  destruct a; simpl; try (rewrite lookup_empty; discriminate). eauto.
Qed.

Lemma runField_metadata (r : Registry) (th : FieldThunk) (cfg : GraphQLFieldConfig) :
  runField r th = inr cfg →
  f_resolve cfg = fieldResolver (proto_get (ft_target th) (ft_key th)) ∧
  f_description cfg = getDescription (ft_target th) (Some (ft_key th)) ∧
  f_deprecationReason cfg = getDeprecationReason (ft_target th) (Some (ft_key th)).
Proof.
  rewrite runField_unfold.
  destruct (getGraphQLType r _) as [e|t]; [discriminate|].
  destruct (isOutputType t); [|discriminate].
  destruct (mountArguments _ _ _) as [e|fieldArgs]; [discriminate|].
  intros [= <-]. simpl. auto.
Qed.

(** X4: in a registry whose thunks are in place, every entry of the field
    map of an object type was decorated under that very name, on the class
    itself or, when the class does not declare the name, on one of the listed
    interfaces; and whenever it is mounted, its resolver, description and
    deprecation reason are those of the property of that class: an inherited
    field resolves with the method of the interface, not with the one of the
    class that inherits it. *)
Theorem X4_object_type_field_origin (opts : ObjectTypeConfig) (target : Ctor)
    (r : Registry) (k : string) (th : FieldThunk) :
  thunks_in_place r →
  ObjectType_fields r opts target !! k = Some th →
  ∃ c,
    ft_target th = c ∧ ft_key th = k ∧
    getFields r (AClass c) !! k = Some th ∧
    (c = target ∨
     (getFields r (AClass target) !! k = None ∧
      AClass c ∈ default [] (otc_interfaces opts))) ∧
    ∀ r' cfg, runField r' th = inr cfg →
      f_resolve cfg = fieldResolver (proto_get c k) ∧
      f_description cfg = getDescription c (Some k) ∧
      f_deprecationReason cfg = getDeprecationReason c (Some k).
Proof.
  intros [Hfields _] Hk. unfold ObjectType_fields in Hk. rewrite lookup_spread in Hk.
  assert (Hfrom : ∃ c, getFields r (AClass c) !! k = Some th ∧
            (c = target ∨
             (getFields r (AClass target) !! k = None ∧
              AClass c ∈ default [] (otc_interfaces opts)))).
  { destruct (getFields r (AClass target) !! k) as [own|] eqn:Hown.
    - injection Hk as ->. exists target. split; [exact Hown | left; reflexivity].
    - destruct (allInterfaceFields_Some r _ k th Hk) as (i & Hi & Hth).
      destruct (getFields_Some_class r i k th Hth) as [c ->].
      exists c. split; [exact Hth | right; split; [reflexivity | exact Hi]]. }
  destruct Hfrom as (c & Hth & Hwhere).
  destruct (Hfields c k th Hth) as [Htarget Hkey].
  exists c. split; [exact Htarget|]. split; [exact Hkey|]. split; [exact Hth|].
  split; [exact Hwhere|].
  intros r' cfg Hrun. pose proof (runField_metadata r' th cfg Hrun) as Hmeta.
  rewrite Htarget, Hkey in Hmeta. exact Hmeta.
Qed.

(** ** From a decorated property to the type *)

Lemma getFields_setFields_lookup_ne (c : Ctor) (key k : string) (th : FieldThunk)
    (r : Registry) (a : Any) :
  k ≠ key →
  getFields (setFields c (<[key := th]> (getFields r (AClass c))) r) a !! k =
  getFields r a !! k.
Proof.
  intros Hne. destruct a as [|c'| | | |];
    try (rewrite getFields_setFields_ne by discriminate; reflexivity).
  destruct (decide (c' = c)) as [->|Hc].
  - rewrite getFields_setFields. apply lookup_insert_ne. congruence.
  - rewrite getFields_setFields_ne by congruence. reflexivity.
Qed.

(** The inherited fields under a name depend on what the interfaces hold
    under that name only. *)
Lemma inherited_fold_pointwise (r r' : Registry) (l : list Any)
    (acc acc' : gmap string FieldThunk) (k : string) :
  (∀ i, getFields r' i !! k = getFields r i !! k) →
  acc' !! k = acc !! k →
  foldl (fun acc iface => spread acc (getFields r' iface)) acc' l !! k =
  foldl (fun acc iface => spread acc (getFields r iface)) acc l !! k.
Proof.
  intros Hsame. revert acc acc'. induction l as [|i l IH]; intros acc acc' Hacc; simpl.
  - exact Hacc.
  - apply IH. rewrite !lookup_spread, Hsame, Hacc. reflexivity.
Qed.

Lemma ObjectType_fields_pointwise (r r' : Registry) (opts : ObjectTypeConfig)
    (c : Ctor) (k : string) :
  (∀ i, getFields r' i !! k = getFields r i !! k) →
  ObjectType_fields r' opts c !! k = ObjectType_fields r opts c !! k.
Proof.
  intros Hsame. unfold ObjectType_fields, allInterfaceFields.
  rewrite !lookup_spread, Hsame.
  rewrite (inherited_fold_pointwise r r' _ ∅ ∅ k Hsame eq_refl). reflexivity.
Qed.

(** X5: once [Field] has returned for a property, the thunk it stored is the
    field of that name in the field map of the class, whatever interfaces it
    lists; it is the field of that name of every class that lists the
    decorated class as its last interface declaring the name and does not
    declare the name itself; and under every other name the field maps of all
    classes are what they were. *)
Theorem X5_decorated_field_reaches_the_type (type : Any) (config : FieldConfig)
    (target : Ctor) (key : string) (r r' : Registry) :
  Field type config target key r = (inr tt, r') →
  let th := {| ft_type := type; ft_config := config;
               ft_target := target; ft_key := key |} in
  getFields r' (AClass target) !! key = Some th ∧
  (∀ opts, ObjectType_fields r' opts target !! key = Some th) ∧
  (∀ opts c l1 l2,
     otc_interfaces opts = Some (l1 ++ AClass target :: l2) →
     (∀ i, i ∈ l2 → getFields r' i !! key = None) →
     getFields r' (AClass c) !! key = None →
     ObjectType_fields r' opts c !! key = Some th) ∧
  (∀ opts c k, k ≠ key →
     ObjectType_fields r' opts c !! k = ObjectType_fields r opts c !! k).
Proof.
  intros Hrun th. destruct (Field_returns _ _ _ _ _ _ Hrun) as (Hfresh & _ & ->).
  fold th.
  assert (Hth : getFields (setFields target (<[key := th]> (getFields r (AClass target))) r)
                  (AClass target) !! key = Some th).
  { rewrite getFields_setFields. apply lookup_insert_eq. }
  split; [exact Hth|]. split; [|split].
  - intros opts. unfold ObjectType_fields. rewrite lookup_spread, Hth. reflexivity.
  - intros opts c l1 l2 Hopts Hl2 Hown.
    unfold ObjectType_fields. rewrite lookup_spread, Hown, Hopts. simpl.
    apply allInterfaceFields_last; [exact Hth | exact Hl2].
  - intros opts c k Hne. apply ObjectType_fields_pointwise.
    intros i. apply getFields_setFields_lookup_ne, Hne.
Qed.

(** ** Fields and input fields *)

(** X6: the fields and the input fields of a class are kept apart: [Field]
    never changes the input fields of any class, [InputField] never changes
    the fields of any class nor the field map of any object type, so one name
    that no object inherits can be decorated with both on the same class; and
    [InputObjectType]
    registers the type the library builds from the mounting of the input
    fields of the class alone. *)
Theorem X6_fields_and_input_fields_apart (target : Ctor) (key : string) (r : Registry) :
  (∀ type config x r',
     Field type config target key r = (x, r') →
     ∀ a, getInputFields r' a = getInputFields r a) ∧
  (∀ type config x r',
     InputField type config target key r = (x, r') →
     (∀ a, getFields r' a = getFields r a) ∧
     ∀ opts c, ObjectType_fields r' opts c = ObjectType_fields r opts c) ∧
  (∀ type config type' config',
     getFields r (AClass target) !! key = None →
     getInputFields r (AClass target) !! key = None →
     in_Object_prototype key = false →
     ∃ r1 r2,
       Field type config target key r = (inr tt, r1) ∧
       InputField type' config' target key r1 = (inr tt, r2) ∧
       is_Some (getFields r2 (AClass target) !! key) ∧
       is_Some (getInputFields r2 (AClass target) !! key)) ∧
  (∀ opts c r', InputObjectType opts target r = (inr c, r') →
     ∃ mounted type,
       mountInputFields r (getInputFields r (AClass target)) = inr mounted ∧
       GraphQLInputObjectType (InputObjectType_config opts target mounted) = inr type ∧
       r' = setGraphQLType target type r).
Proof.
  split; [|split; [|split]].
  - intros type config x r' Hrun a. unfold Field in Hrun.
    destruct (key_in key (getFields r (AClass target)));
      injection Hrun as <- <-; reflexivity.
  - intros type config x r' Hrun.
    assert (Hsame : ∀ a, getFields r' a = getFields r a).
    { intros a. unfold InputField in Hrun.
      destruct (key_in key (getInputFields r (AClass target)));
        injection Hrun as <- <-; reflexivity. }
    split; [exact Hsame|].
    intros opts c. apply map_eq. intros k.
    apply ObjectType_fields_pointwise. intros i. rewrite Hsame. reflexivity.
  - intros type config type' config' Hfield Hinput Hown.
    destruct (Field_fresh type config target key r Hfield Hown)
      as (r1 & Hrun1 & Hget1 & Htypes & Hinputs & _).
    assert (Hinput1 : getInputFields r1 (AClass target) !! key = None).
    { unfold getInputFields. rewrite Hinputs. exact Hinput. }
    destruct (InputField_fresh type' config' target key r1 Hinput1 Hown)
      as (r2 & Hrun2 & Hget2 & _ & Hfields & _).
    exists r1, r2. split; [exact Hrun1|]. split; [exact Hrun2|]. split.
    + unfold getFields. rewrite Hfields. fold (getFields r1 (AClass target)).
      rewrite Hget1, lookup_insert_eq. eexists. reflexivity.
    + rewrite Hget2, lookup_insert_eq. eexists. reflexivity.
  - intros opts c r' Hrun. rewrite InputObjectType_unfold in Hrun. simpl in Hrun.
    destruct (assertInputFields _ _) as [e|[]]; [discriminate|].
    destruct (mountInputFields _ _) as [e|mounted]; [discriminate|].
    destruct (GraphQLInputObjectType _) as [e|type] eqn:Hnew; [discriminate|].
    injection Hrun as <- <-. exists mounted, type.
    split; [reflexivity|]. split; [exact Hnew | reflexivity].
Qed.

(** ** The decorated properties of one class body *)

Lemma Field_all_cons (target : Ctor) (key : string) (type : Any) (config : FieldConfig)
    (rest : list (string * (Any * FieldConfig))) (r : Registry) :
  Field_all target ((key, (type, config)) :: rest) r =
  match Field type config target key r with
  | (inl e, r1) => (inl e, r1)
  | (inr _, r1) => Field_all target rest r1
  end.
Proof. reflexivity. Qed.

Lemma Field_all_app (target : Ctor) (l1 l2 : list (string * (Any * FieldConfig)))
    (r : Registry) :
  Field_all target (l1 ++ l2) r =
  match Field_all target l1 r with
  | (inl e, r1) => (inl e, r1)
  | (inr _, r1) => Field_all target l2 r1
  end.
Proof.
  revert r. induction l1 as [|[key [type config]] l1 IH]; intros r; [reflexivity|].
  rewrite <- app_comm_cons, !Field_all_cons.
  destruct (Field type config target key r) as [[e|[]] r1]; [reflexivity | apply IH].
Qed.

Lemma Field_all_fresh (target : Ctor) (members : list (string * (Any * FieldConfig)))
    (r : Registry) :
  NoDup members.*1 →
  (∀ k, k ∈ members.*1 → getFields r (AClass target) !! k = None) →
  (∀ k, k ∈ members.*1 → in_Object_prototype k = false) →
  ∃ r', Field_all target members r = (inr tt, r') ∧
        (∀ key type config, (key, (type, config)) ∈ members →
           getFields r' (AClass target) !! key =
             Some {| ft_type := type; ft_config := config;
                     ft_target := target; ft_key := key |}) ∧
        (∀ k, k ∉ members.*1 →
           getFields r' (AClass target) !! k = getFields r (AClass target) !! k) ∧
        same_but_fields target r r'.
Proof.
  revert r. induction members as [|[key [type config]] rest IH];
    intros r Hnodup Hfresh Hown.
  - exists r. split; [reflexivity|]. split; [intros ? ? ? Hin; inversion Hin|].
    split; [reflexivity|]. split; [reflexivity|]. split; reflexivity.
  - rewrite fmap_cons in Hnodup. simpl in Hnodup.
    apply NoDup_cons in Hnodup as [Hkey Hnodup].
    destruct (Field_fresh type config target key r) as (r1 & Hrun & Hget & Hsame).
    { apply Hfresh. left. }
    { apply Hown. left. }
    destruct (IH r1 Hnodup) as (r' & Hrest & Hin & Hout & Hsame').
    { intros k Hk. rewrite Hget, lookup_insert_ne.
      - apply Hfresh. right. exact Hk.
      - intros ->. contradiction. }
    { intros k Hk. apply Hown. right. exact Hk. }
    exists r'. rewrite Field_all_cons, Hrun. split; [exact Hrest|].
    split; [|split].
    + intros key0 type0 config0 Hmem.
      apply elem_of_cons in Hmem as [[= -> -> ->]|Hmem]; [|apply Hin, Hmem].
      rewrite Hout by exact Hkey. rewrite Hget. apply lookup_insert_eq.
    + intros k Hk. rewrite fmap_cons in Hk. simpl in Hk.
      apply not_elem_of_cons in Hk as [Hne Hk].
      rewrite Hout by exact Hk. rewrite Hget. apply lookup_insert_ne. congruence.
    + destruct Hsame as (Ht & Hi & Ho), Hsame' as (Ht' & Hi' & Ho').
      split; [congruence|]. split; [congruence|].
      intros a Ha. rewrite Ho' by exact Ha. apply Ho, Ha.
Qed.

Lemma Field_all_returns (target : Ctor) (members : list (string * (Any * FieldConfig)))
    (r r' : Registry) :
  Field_all target members r = (inr tt, r') →
  NoDup members.*1 ∧
  (∀ k, k ∈ members.*1 → getFields r (AClass target) !! k = None) ∧
  (∀ k, k ∈ members.*1 → in_Object_prototype k = false).
Proof.
  revert r. induction members as [|[key [type config]] rest IH]; intros r Hrun.
  - split; [constructor|]. split; intros k Hk; inversion Hk.
  - rewrite Field_all_cons in Hrun.
    destruct (Field type config target key r) as [[e|[]] r1] eqn:Hhead; [discriminate|].
    destruct (Field_returns _ _ _ _ _ _ Hhead) as (Hfresh & Hown & ->).
    destruct (IH _ Hrun) as (Hnodup & Hrest & Hrest').
    assert (Hkey : key ∉ rest.*1).
    { intros Hin. specialize (Hrest key Hin).
      rewrite getFields_setFields, lookup_insert_eq in Hrest. discriminate. }
    split; [|split].
    + rewrite fmap_cons. simpl. apply NoDup_cons. split; assumption.
    + intros k Hk. rewrite fmap_cons in Hk. simpl in Hk.
      apply elem_of_cons in Hk as [->|Hk]; [exact Hfresh|].
      specialize (Hrest k Hk). rewrite getFields_setFields in Hrest.
      rewrite lookup_insert_ne in Hrest; [exact Hrest|].
      intros ->. contradiction.
    + intros k Hk. rewrite fmap_cons in Hk. simpl in Hk.
      apply elem_of_cons in Hk as [->|Hk]; [exact Hown | apply Hrest', Hk].
Qed.

(** X7: the [@Field] decorators of a class body all return exactly when the
    decorated names are pairwise distinct, none is pending for the class
    already and none is a name that an object inherits; the pending map of
    the class then holds, under each name, the thunk of its decorator, is as
    before under every other name, and the rest of the registry is
    untouched. *)
Theorem X7_field_decorators_of_a_class (target : Ctor)
    (members : list (string * (Any * FieldConfig))) (r : Registry) :
  ((∃ r', Field_all target members r = (inr tt, r')) ↔
   NoDup members.*1 ∧
   (∀ k, k ∈ members.*1 → getFields r (AClass target) !! k = None) ∧
   (∀ k, k ∈ members.*1 → in_Object_prototype k = false)) ∧
  (∀ r', Field_all target members r = (inr tt, r') →
     (∀ key type config, (key, (type, config)) ∈ members →
        getFields r' (AClass target) !! key =
          Some {| ft_type := type; ft_config := config;
                  ft_target := target; ft_key := key |}) ∧
     (∀ k, k ∉ members.*1 →
        getFields r' (AClass target) !! k = getFields r (AClass target) !! k) ∧
     same_but_fields target r r').
Proof.
  split.
  - split.
    + intros [r' Hrun]. exact (Field_all_returns target members r r' Hrun).
    + intros (Hnodup & Hfresh & Hown).
      destruct (Field_all_fresh target members r Hnodup Hfresh Hown) as (r' & Hrun & _).
      exists r'. exact Hrun.
  - intros r' Hrun.
    destruct (Field_all_returns target members r r' Hrun) as (Hnodup & Hfresh & Hown).
    destruct (Field_all_fresh target members r Hnodup Hfresh Hown)
      as (r'' & Hrun' & Hrest).
    rewrite Hrun in Hrun'. injection Hrun' as <-. exact Hrest.
Qed.

(** X8: after members of the class body whose [@Field] decorators return
    (distinct names, none pending already, none inherited by an object), a
    [@Field] on a name that one of them has decorated, or that is pending
    already, or that an object inherits, throws the duplicate error for that
    name and ends the run; the decorations made before it are not undone: the
    registry is the one they left. *)
Theorem X8_duplicate_member_keeps_earlier_fields (target : Ctor)
    (l1 l2 : list (string * (Any * FieldConfig))) (key : string) (type : Any)
    (config : FieldConfig) (r : Registry) :
  NoDup l1.*1 →
  (∀ k, k ∈ l1.*1 → getFields r (AClass target) !! k = None) →
  (∀ k, k ∈ l1.*1 → in_Object_prototype k = false) →
  key ∈ l1.*1 ∨ is_Some (getFields r (AClass target) !! key) ∨
    in_Object_prototype key = true →
  ∃ r1,
    Field_all target l1 r = (inr tt, r1) ∧
    Field_all target (l1 ++ (key, (type, config)) :: l2) r =
      (inl (duplicate_error key target), r1).
Proof.
  intros Hnodup Hfresh Hown Hdup.
  destruct (Field_all_fresh target l1 r Hnodup Hfresh Hown)
    as (r1 & Hrun & Hin & Hout & _).
  exists r1. split; [exact Hrun|].
  rewrite Field_all_app, Hrun, Field_all_cons.
  destruct Hdup as [Hmem|[Hold|Hproto]];
    [| |rewrite Field_inherited by exact Hproto; reflexivity];
    (rewrite Field_duplicate; [reflexivity|]).
  - apply list_elem_of_fmap in Hmem as ([key' [type' config']] & Heq & Hmem).
    simpl in Heq. subst key. rewrite (Hin _ _ _ Hmem). eexists. reflexivity.
  - destruct (decide (key ∈ l1.*1)) as [Hmem|Hmem].
    + apply list_elem_of_fmap in Hmem as ([key' [type' config']] & Heq & Hmem).
      simpl in Heq. subst key. rewrite (Hin _ _ _ Hmem). eexists. reflexivity.
    + rewrite Hout by exact Hmem. exact Hold.
Qed.

(** ** What a mounted field holds *)

(** X9: the description and the deprecation reason given in the
    configuration of [Field] play no part: the thunk returns or throws the
    same whatever they are, and the mounted field carries the resolved output
    type and the description and deprecation reason of the metadata of the
    property. *)
Theorem X9_field_config_description_is_ignored (r : Registry) (type : Any)
    (config : FieldConfig) (target : Ctor) (key : string) :
  let th := {| ft_type := type; ft_config := config;
               ft_target := target; ft_key := key |} in
  (∀ description deprecationReason,
     runField r {| ft_type := type;
                   ft_config := {| fc_args := fc_args config;
                                   fc_description := description;
                                   fc_deprecationReason := deprecationReason |};
                   ft_target := target; ft_key := key |} = runField r th) ∧
  (∀ cfg, runField r th = inr cfg →
     getGraphQLType r type = inr (f_type cfg) ∧
     isOutputType (f_type cfg) = true ∧
     f_description cfg = getDescription target (Some key) ∧
     f_deprecationReason cfg = getDeprecationReason target (Some key)).
Proof.
  intros th. split.
  - intros description deprecationReason. rewrite !runField_unfold. reflexivity.
  - intros cfg Hrun. rewrite runField_unfold in Hrun. simpl in Hrun.
    destruct (getGraphQLType r type) as [e|t]; [discriminate|].
    destruct (isOutputType t) eqn:Hout; [|discriminate].
    destruct (mountArguments _ _ _) as [e|fieldArgs]; [discriminate|].
    injection Hrun as <-. simpl. auto.
Qed.

Lemma mountArgument_returns (r : Registry) (argKey : string) (arg : Any)
    (cfg : GraphQLArgumentConfig) :
  mountArgument r argKey arg = inr cfg →
  arg_defaultValue cfg = None ∧ isInputType (arg_type cfg) = true.
Proof.
  destruct arg; [discriminate|..];
    (rewrite mountArgument_unfold by discriminate;
     destruct (getGraphQLType r _) as [e|newType]; [discriminate|];
     destruct (isInputType newType) eqn:Hin; [|discriminate];
     intros [= <-]; split; [reflexivity | exact Hin]).
Qed.

Lemma mountArguments_other (r : Registry) (args : list (string * Any))
    (fieldArgs m : gmap string GraphQLArgumentConfig) (k : string) :
  mountArguments r args fieldArgs = inr m →
  k ∉ args.*1 → m !! k = fieldArgs !! k.
Proof.
  revert fieldArgs. induction args as [|[k0 a0] rest IH]; intros fieldArgs Hrun Hk.
  - injection Hrun as <-. reflexivity.
  - simpl in Hrun. destruct (mountArgument r k0 a0) as [e|c0]; [discriminate|].
    simpl in Hrun. rewrite fmap_cons in Hk. simpl in Hk.
    apply not_elem_of_cons in Hk as [Hne Hk].
    rewrite (IH _ Hrun Hk). apply lookup_insert_ne. congruence.
Qed.

Lemma mountArguments_keys (r : Registry) (args : list (string * Any))
    (fieldArgs m : gmap string GraphQLArgumentConfig) (k : string) :
  mountArguments r args fieldArgs = inr m →
  is_Some (m !! k) ↔ k ∈ args.*1 ∨ is_Some (fieldArgs !! k).
Proof.
  revert fieldArgs. induction args as [|[k0 a0] rest IH]; intros fieldArgs Hrun.
  - injection Hrun as <-. split; [auto|]. intros [Hk|Hk]; [inversion Hk | exact Hk].
  - simpl in Hrun. destruct (mountArgument r k0 a0) as [e|c0]; [discriminate|].
    simpl in Hrun. rewrite (IH _ Hrun), fmap_cons. simpl.
    rewrite elem_of_cons. destruct (decide (k = k0)) as [->|Hne].
    + rewrite lookup_insert_eq. split; [auto|]. intros _. right. eexists. reflexivity.
    + rewrite lookup_insert_ne by congruence. tauto.
Qed.

Lemma mountArguments_entry (r : Registry) (args : list (string * Any))
    (fieldArgs m : gmap string GraphQLArgumentConfig) (k : string) (arg : Any) :
  mountArguments r args fieldArgs = inr m →
  NoDup args.*1 →
  (k, arg) ∈ args →
  ∃ c, mountArgument r k arg = inr c ∧ m !! k = Some c.
Proof.
  revert fieldArgs. induction args as [|[k0 a0] rest IH]; intros fieldArgs Hrun Hnodup Hin.
  - inversion Hin.
  - simpl in Hrun. destruct (mountArgument r k0 a0) as [e|c0] eqn:Hhead; [discriminate|].
    simpl in Hrun. rewrite fmap_cons in Hnodup. simpl in Hnodup.
    apply NoDup_cons in Hnodup as [Hk0 Hnodup].
    apply elem_of_cons in Hin as [[= -> ->]|Hin].
    + exists c0. split; [exact Hhead|].
      rewrite (mountArguments_other r rest _ m k0 Hrun Hk0). apply lookup_insert_eq.
    + exact (IH _ Hrun Hnodup Hin).
Qed.

Lemma mountArguments_all (r : Registry) (args : list (string * Any))
    (fieldArgs m : gmap string GraphQLArgumentConfig)
    (P : GraphQLArgumentConfig → Prop) :
  (∀ k arg c, mountArgument r k arg = inr c → P c) →
  (∀ k c, fieldArgs !! k = Some c → P c) →
  mountArguments r args fieldArgs = inr m →
  ∀ k c, m !! k = Some c → P c.
Proof.
  intros Hstep. revert fieldArgs. induction args as [|[k0 a0] rest IH];
    intros fieldArgs Hacc Hrun.
  - injection Hrun as <-. exact Hacc.
  - simpl in Hrun. destruct (mountArgument r k0 a0) as [e|c0] eqn:Hhead; [discriminate|].
    simpl in Hrun. refine (IH _ _ Hrun).
    intros k c Hk. destruct (decide (k = k0)) as [->|Hne].
    + rewrite lookup_insert_eq in Hk. injection Hk as <-. exact (Hstep _ _ _ Hhead).
    + rewrite lookup_insert_ne in Hk by congruence. exact (Hacc _ _ Hk).
Qed.

(** X10: the arguments of a mounted field are those of the configuration,
    name for name: a name has an argument exactly when it is a key of [args],
    each key holds what the loop made of its entry, and every mounted
    argument has an input type and no default value. *)
Theorem X10_mounted_arguments (r : Registry) (th : FieldThunk) (cfg : GraphQLFieldConfig) :
  runField r th = inr cfg →
  let args := default [] (fc_args (ft_config th)) in
  (∀ k, is_Some (f_args cfg !! k) ↔ k ∈ args.*1) ∧
  (NoDup args.*1 →
   ∀ k arg, (k, arg) ∈ args →
     ∃ c, mountArgument r k arg = inr c ∧ f_args cfg !! k = Some c) ∧
  (∀ k c, f_args cfg !! k = Some c →
     arg_defaultValue c = None ∧ isInputType (arg_type c) = true).
Proof.
  intros Hrun args. rewrite runField_unfold in Hrun.
  destruct (getGraphQLType r _) as [e|t]; [discriminate|].
  destruct (isOutputType t); [|discriminate].
  fold args in Hrun.
  destruct (mountArguments r args ∅) as [e|fieldArgs] eqn:Hargs; [discriminate|].
  injection Hrun as <-. simpl. split; [|split].
  - intros k. rewrite (mountArguments_keys r args ∅ fieldArgs k Hargs), lookup_empty.
    split; [intros [Hk|[? Hk]]; [exact Hk | discriminate] | auto].
  - intros Hnodup k arg Hin. exact (mountArguments_entry r args ∅ fieldArgs k arg Hargs Hnodup Hin).
  - apply (mountArguments_all r args ∅ fieldArgs
             (fun c => arg_defaultValue c = None ∧ isInputType (arg_type c) = true));
      [|intros k c Hk; rewrite lookup_empty in Hk; discriminate | exact Hargs].
    intros k arg c Hc. exact (mountArgument_returns r k arg c Hc).
Qed.

Lemma mountArguments_undefined_entry (r : Registry) (l1 l2 : list (string * Any))
    (argKey : string) (fieldArgs : gmap string GraphQLArgumentConfig) :
  Forall (argument_is_input r) l1 →
  mountArguments r (l1 ++ (argKey, AUndefined) :: l2) fieldArgs =
    inl (TypeError_undefined "type").
Proof.
  intros Hl1. revert fieldArgs.
  induction Hl1 as [|[k a] rest Hhd _ IH]; intros fieldArgs; simpl.
  - reflexivity.
  - destruct (mountArgument_is_input r k a Hhd) as [c ->]. simpl. apply IH.
Qed.

(** X11: two entries of [args] that are not types: an entry that is
    [undefined] (the entries before it being input types) makes the thunk
    throw the [TypeError] of reading [type] off [undefined], not the
    argument error; and a record whose [type] is [undefined] is taken for a
    bare type: the record itself is what is resolved, and its description is
    not kept. *)
Theorem X11_arguments_that_are_not_types (r : Registry) :
  (∀ th t l1 argKey l2,
     getGraphQLType r (ft_type th) = inr t →
     isOutputType t = true →
     fc_args (ft_config th) = Some (l1 ++ (argKey, AUndefined) :: l2) →
     Forall (argument_is_input r) l1 →
     runField r th = inl (TypeError_undefined "type")) ∧
  (∀ argKey description defaultValue,
     let record := Argument AUndefined description defaultValue in
     (∀ e, getGraphQLType r record = inl e → mountArgument r argKey record = inl e) ∧
     (∀ t, getGraphQLType r record = inr t → isInputType t = false →
        mountArgument r argKey record = inl (argument_error argKey record)) ∧
     (∀ t, getGraphQLType r record = inr t → isInputType t = true →
        mountArgument r argKey record =
          inr {| arg_type := t; arg_description := None; arg_defaultValue := None |})).
Proof.
  split.
  - intros th t l1 argKey l2 Hres Hout Hargs Hl1.
    rewrite runField_unfold, Hres, Hout, Hargs. simpl.
    rewrite (mountArguments_undefined_entry r l1 l2 argKey ∅ Hl1). reflexivity.
  - intros argKey description defaultValue record.
    assert (Hbody : mountArgument r argKey record =
              match getGraphQLType r record with
              | inl e => inl e
              | inr t =>
                  if isInputType t
                  then inr {| arg_type := t; arg_description := None;
                              arg_defaultValue := None |}
                  else inl (argument_error argKey record)
              end).
    { unfold record. rewrite mountArgument_unfold by discriminate. reflexivity. }
    split; [|split].
    + intros e Hres. rewrite Hbody, Hres. reflexivity.
    + intros t Hres Hin. rewrite Hbody, Hres, Hin. reflexivity.
    + intros t Hres Hin. rewrite Hbody, Hres, Hin. reflexivity.
Qed.

(** ** What a mounted input field holds *)

(** X12: a mounted input field carries the resolved input type; its
    description and deprecation reason are those of the configuration when
    given and not empty, and those of the metadata of the property
    otherwise; its default value is the one of the configuration when that is
    truthy, and otherwise the value found at the property: a falsy default
    value given in the configuration is not kept. *)
Theorem X12_mounted_input_field (r : Registry) (th : InputFieldThunk)
    (cfg : GraphQLInputFieldConfig) :
  runInputField r th = inr cfg →
  let config := ift_config th in
  let target := ift_target th in
  let key := ift_key th in
  getGraphQLType r (ift_type th) = inr (if_type cfg) ∧
  isInputType (if_type cfg) = true ∧
  chosen_description (ifc_description config) (getDescription target (Some key))
    (if_description cfg) ∧
  chosen_description (ifc_deprecationReason config)
    (getDeprecationReason target (Some key)) (if_deprecationReason cfg) ∧
  (∀ v, ifc_defaultValue config = Some v → truthy v = true → if_defaultValue cfg = v) ∧
  (∀ v, ifc_defaultValue config = Some v → truthy v = false →
     if_defaultValue cfg = proto_get target key) ∧
  (ifc_defaultValue config = None → if_defaultValue cfg = proto_get target key).
Proof.
  intros Hrun config target key. rewrite runInputField_unfold in Hrun.
  destruct (getGraphQLType r _) as [e|t]; [discriminate|].
  destruct (isInputType t) eqn:Hin; [|discriminate].
  injection Hrun as <-. simpl. fold config target key.
  assert (Hchosen : ∀ given fallback,
            chosen_description given fallback (or_opt_string given fallback)).
  { intros given fallback. split.
    - intros d -> Hd. unfold or_opt_string. rewrite decide_False by exact Hd. reflexivity.
    - intros [-> | ->]; reflexivity. }
  split; [reflexivity|]. split; [exact Hin|].
  split; [apply Hchosen|]. split; [apply Hchosen|].
  unfold or_value. split; [|split].
  - intros v -> ->. reflexivity.
  - intros v -> ->. reflexivity.
  - intros ->. reflexivity.
Qed.

(** ** Names and descriptions of the registered types *)

Lemma or_string_chosen (given : option string) (fallback : string) :
  chosen_name given fallback (or_string given fallback).
Proof.
  split.
  - intros name -> Hname. unfold or_string. rewrite decide_False by exact Hname.
    reflexivity.
  - intros [-> | ->]; reflexivity.
Qed.

Lemma or_opt_string_chosen (given fallback : option string) :
  chosen_description given fallback (or_opt_string given fallback).
Proof.
  split.
  - intros d -> Hd. unfold or_opt_string. rewrite decide_False by exact Hd. reflexivity.
  - intros [-> | ->]; reflexivity.
Qed.

(** X13: the object, interface and input object type that a class decorator
    registers is built under the name of the options when that is given and
    not empty, and under the name of the class otherwise; its description is
    the one of the options when given and not empty, and the one of the
    metadata of the class otherwise; the description of an enum is chosen the
    same way. *)
Theorem X13_names_and_descriptions (target : Ctor) (r : Registry) :
  (∀ opts c r', ObjectType opts target r = (inr c, r') →
     ∃ cfg type,
       GraphQLObjectType cfg = inr type ∧ reg_types r' !! target = Some type ∧
       chosen_name (otc_name opts) (class_name target) (ot_name cfg) ∧
       chosen_description (otc_description opts) (getDescription target None)
         (ot_description cfg)) ∧
  (∀ opts c r', InterfaceType opts target r = (inr c, r') →
     ∃ cfg type,
       GraphQLInterfaceType cfg = inr type ∧ reg_types r' !! target = Some type ∧
       chosen_name (itc_name opts) (class_name target) (it_name cfg) ∧
       chosen_description (itc_description opts) (getDescription target None)
         (it_description cfg)) ∧
  (∀ opts c r', InputObjectType opts target r = (inr c, r') →
     ∃ cfg type,
       GraphQLInputObjectType cfg = inr type ∧ reg_types r' !! target = Some type ∧
       chosen_name (iotc_name opts) (class_name target) (iot_name cfg) ∧
       chosen_description (iotc_description opts) (getDescription target None)
         (iot_description cfg)) ∧
  (∀ opts c r', EnumType opts target r = (inr c, r') →
     ∃ cfg type,
       GraphQLEnumType cfg = inr type ∧ reg_types r' !! target = Some type ∧
       chosen_description (etc_description opts) (getDescription target None)
         (et_description cfg)).
Proof.
  split; [|split; [|split]]; intros opts c r' Hrun.
  - rewrite ObjectType_unfold in Hrun.
    destruct (mapM _ _) as [e|tys]; [discriminate|]. simpl in Hrun.
    destruct (assertFields _ _) as [e|[]]; [discriminate|].
    destruct (mountFields _ _) as [e|mounted]; [discriminate|].
    destruct (GraphQLObjectType _) as [e|type] eqn:Hnew; [discriminate|].
    injection Hrun as <- <-. eexists _, type. split; [exact Hnew|].
    split; [apply setGraphQLType_lookup|].
    split; [apply or_string_chosen | apply or_opt_string_chosen].
  - rewrite InterfaceType_unfold in Hrun. simpl in Hrun.
    destruct (assertFields _ _) as [e|[]]; [discriminate|].
    destruct (mountFields _ _) as [e|mounted]; [discriminate|].
    destruct (GraphQLInterfaceType _) as [e|type] eqn:Hnew; [discriminate|].
    injection Hrun as <- <-. eexists _, type. split; [exact Hnew|].
    split; [apply setGraphQLType_lookup|].
    split; [apply or_string_chosen | apply or_opt_string_chosen].
  - rewrite InputObjectType_unfold in Hrun. simpl in Hrun.
    destruct (assertInputFields _ _) as [e|[]]; [discriminate|].
    destruct (mountInputFields _ _) as [e|mounted]; [discriminate|].
    destruct (GraphQLInputObjectType _) as [e|type] eqn:Hnew; [discriminate|].
    injection Hrun as <- <-. eexists _, type. split; [exact Hnew|].
    split; [apply setGraphQLType_lookup|].
    split; [apply or_string_chosen | apply or_opt_string_chosen].
  - rewrite EnumType_unfold in Hrun.
    destruct (GraphQLEnumType _) as [e|type] eqn:Hnew; [discriminate|].
    injection Hrun as <- <-. eexists _, type. split; [exact Hnew|].
    split; [apply setGraphQLType_lookup | apply or_opt_string_chosen].
Qed.

(** ** The interface type *)

(** X14: the interface type that [InterfaceType] registers is built from the
    mounting of the fields of the class alone, and with a [resolveType] that,
    each time it is called, resolves against the registry of that moment the
    value that [opts.resolveType] returns for the root, or the root itself
    when the options give none: a class decorated after the interface can be
    the answer. *)
Theorem X14_interface_type_resolves_late (opts : InterfaceTypeConfig) (target c : Ctor)
    (r r' : Registry) :
  InterfaceType opts target r = (inr c, r') →
  ∃ cfg type,
    GraphQLInterfaceType cfg = inr type ∧
    r' = setGraphQLType target type r ∧
    mountFields r (getFields r (AClass target)) = inr (it_fields cfg) ∧
    (∀ resolveType, itc_resolveType opts = Some resolveType →
       ∀ r'' root context info,
         it_resolveType cfg r'' root context info =
           getGraphQLType r'' (resolveType root context info)) ∧
    (itc_resolveType opts = None →
       ∀ r'' root context info,
         it_resolveType cfg r'' root context info = getGraphQLType r'' (AValue root)).
Proof.
  intros Hrun. rewrite InterfaceType_unfold in Hrun. simpl in Hrun.
  destruct (assertFields _ _) as [e|[]]; [discriminate|].
  destruct (mountFields _ _) as [e|mounted] eqn:Hm; [discriminate|].
  destruct (GraphQLInterfaceType _) as [e|type] eqn:Hnew; [discriminate|].
  injection Hrun as <- <-. eexists _, type. split; [exact Hnew|].
  split; [reflexivity|]. split; [reflexivity|]. simpl. split.
  - intros resolveType Hopts r'' root context info.
    unfold InterfaceType_resolveType. rewrite Hopts. reflexivity.
  - intros Hopts r'' root context info.
    unfold InterfaceType_resolveType. rewrite Hopts. reflexivity.
Qed.

(** ** [List] and [NonNull] *)

(** X15: [List] and [NonNull] resolve their argument at once: when it does
    not resolve they throw the error of [getGraphQLType], where [Field] with
    the same type, on a name that is neither pending nor inherited by an
    object, returns and leaves the resolution to its thunk; when it
    resolves they return what the constructor of the library makes of the
    resolved type. *)
Theorem X15_structures_resolve_at_once (r : Registry) (ofType : Any) :
  (∀ e, getGraphQLType r ofType = inl e →
     Structures.List r ofType = inl e ∧
     Structures.NonNull r ofType = inl e ∧
     ∀ config target key,
       getFields r (AClass target) !! key = None →
       in_Object_prototype key = false →
       ∃ r', Field ofType config target key r = (inr tt, r')) ∧
  (∀ t, getGraphQLType r ofType = inr t →
     Structures.List r ofType = GraphQLList t ∧
     Structures.NonNull r ofType = GraphQLNonNull t).
Proof.
  split.
  - intros e Hres. unfold Structures.List, Structures.NonNull. rewrite Hres.
    split; [reflexivity|]. split; [reflexivity|].
    intros config target key Hfresh Hown.
    destruct (Field_fresh ofType config target key r Hfresh Hown) as (r' & Hrun & _).
    exists r'. exact Hrun.
  - intros t Hres. unfold Structures.List, Structures.NonNull. rewrite Hres.
    split; reflexivity.
Qed.

(** ** The static properties of an enum class *)

Lemma filter_nil_Forall {A : Type} (P : A → Prop) `{!∀ x, Decision (P x)} (l : list A) :
  filter P l = [] ↔ Forall (fun x => ¬ P x) l.
Proof.
  induction l as [|x l IH]; [split; [constructor | reflexivity]|].
  rewrite filter_cons. destruct (decide (P x)) as [Hx|Hx].
  - split; [discriminate|]. intros Hall. inversion Hall; contradiction.
  - rewrite IH. split; [intros Hl; constructor; assumption|].
    intros Hall. inversion Hall; assumption.
Qed.

Lemma enum_values_fold_size (target : Ctor) (names : list string)
    (values : gmap string GraphQLEnumValueConfig) :
  NoDup names →
  (∀ name, name ∈ names → values !! name = None) →
  size (foldl (fun values name => <[name := enumValue target name]> values) values names) =
  size values + length names.
Proof.
  intros Hnodup. revert values.
  induction Hnodup as [|name names Hname _ IH]; intros values Hfresh; simpl.
  - lia.
  - rewrite IH.
    + rewrite map_size_insert_None; [lia | apply Hfresh; left].
    + intros n Hn. rewrite lookup_insert_ne; [apply Hfresh; right; exact Hn|].
      intros ->. contradiction.
Qed.

(** X16: [getStaticProperties] returns own property names of the class, in
    their order, and none that a plain class has; it is empty exactly when
    the class has no own property besides those, as for the plain class
    itself, and the value map of the enum is then empty; when the own
    property names are distinct, the enum has as many values as there are
    static properties. *)
Theorem X16_static_properties (target : Ctor) :
  sublist (getStaticProperties target) (getOwnPropertyNames target) ∧
  (∀ name, name ∈ getStaticProperties target → name ∉ BaseClassProperties) ∧
  (getStaticProperties target = [] ↔
   ∀ name, name ∈ getOwnPropertyNames target → name ∈ BaseClassProperties) ∧
  getStaticProperties BaseClass = [] ∧
  (getStaticProperties target = [] → EnumType_values target = ∅) ∧
  (NoDup (getOwnPropertyNames target) →
   size (EnumType_values target) = length (getStaticProperties target)).
Proof.
  assert (Hempty : ∀ c, getStaticProperties c = [] ↔
            ∀ name, name ∈ getOwnPropertyNames c → name ∈ BaseClassProperties).
  { intros c. unfold getStaticProperties. rewrite filter_nil_Forall, Forall_forall.
    split; intros Hall name Hname.
    - destruct (decide (name ∈ BaseClassProperties)) as [Hin|Hout]; [exact Hin|].
      exfalso. exact (Hall name Hname Hout).
    - intros Hout. exact (Hout (Hall name Hname)). }
  split; [apply sublist_filter|]. split; [|split; [|split; [|split]]].
  - intros name Hname. apply elem_of_getStaticProperties in Hname. tauto.
  - apply Hempty.
  - apply Hempty. intros name Hname. exact Hname.
  - intros Hnil. unfold EnumType_values. rewrite Hnil. reflexivity.
  - intros Hnodup. unfold EnumType_values.
    rewrite enum_values_fold_size, map_size_empty; [reflexivity| |].
    + unfold getStaticProperties. apply NoDup_filter, Hnodup.
    + intros name _. apply lookup_empty.
Qed.

End Coverage.

(** * The further properties at work on the Star Wars classes *)

Section CoverageStarWars.
Import Demo.

Lemma after_Field_in_place (type : Any) (config : FieldConfig) (target : Ctor)
    (key : string) (r : Registry) :
  thunks_in_place r → thunks_in_place (after (Field type config target key) r).
Proof.
  intros Hr. unfold after.
  destruct (Field type config target key r) as [x r'] eqn:Hrun.
  exact (Field_keeps_place _ _ _ _ _ _ _ Hrun Hr).
Qed.

Lemma after_InterfaceType_in_place (opts : InterfaceTypeConfig) (target : Ctor)
    (r : Registry) :
  thunks_in_place r → thunks_in_place (after (InterfaceType opts target) r).
Proof.
  intros Hr. unfold after.
  destruct (InterfaceType opts target r) as [x r'] eqn:Hrun.
  destruct (class_decorators_keep_fields target r) as (_ & Hkeep & _).
  destruct (Hkeep opts x r' Hrun) as [Hf Hi].
  exact (thunks_in_place_same_fields r r' Hf Hi Hr).
Qed.

Lemma after_EnumType_in_place (opts : EnumTypeConfig) (target : Ctor) (r : Registry) :
  thunks_in_place r → thunks_in_place (after (EnumType opts target) r).
Proof.
  intros Hr. unfold after.
  destruct (EnumType opts target r) as [x r'] eqn:Hrun.
  destruct (class_decorators_keep_fields target r) as (_ & _ & _ & Hkeep).
  destruct (Hkeep opts x r' Hrun) as [Hf Hi].
  exact (thunks_in_place_same_fields r r' Hf Hi Hr).
Qed.

Lemma registry_human_in_place : thunks_in_place registry_human.
Proof.
  unfold registry_human, registry_character.
  repeat first [ apply after_Field_in_place
               | apply after_InterfaceType_in_place
               | apply after_EnumType_in_place ].
  apply thunks_in_place_empty.
Qed.

(** [ObjectType] on [Droid], which has no field. *)
Lemma X1_witness :
  ObjectType query_opts Droid registry_review =
    (inl "Type Droid must have fields defined on it.",
     after (ObjectType query_opts Droid) registry_review) ∧
  after (ObjectType query_opts Droid) registry_review = registry_review.
Proof.
  assert (Hrun : ObjectType query_opts Droid registry_review =
                 (inl "Type Droid must have fields defined on it.",
                  after (ObjectType query_opts Droid) registry_review)).
  { vm_compute. reflexivity. }
  split; [exact Hrun|].
  destruct (X1_throwing_class_decorator_writes_nothing Droid registry_review)
    as (Hobject & _).
  exact (proj1 (Hobject _ _ _ Hrun)).
Defined.

(** [ObjectType()] on [Query]. *)
Lemma X2_witness :
  (otc_interfaces query_opts = None ∨ otc_interfaces query_opts = Some []) ∧
  ObjectType_fields registry_query_fields query_opts Query =
    getFields registry_query_fields (AClass Query) ∧
  ∃ mounted type,
    mountFields registry_query_fields (getFields registry_query_fields (AClass Query)) =
      inr mounted ∧
    GraphQLObjectType (ObjectType_config query_opts Query [] mounted) = inr type ∧
    registry_query = setGraphQLType Query type registry_query_fields.
Proof.
  assert (Hopts : otc_interfaces query_opts = None ∨ otc_interfaces query_opts = Some []).
  { left. reflexivity. }
  split; [exact Hopts|].
  destruct (X2_object_type_without_interfaces query_opts Query registry_query_fields Hopts)
    as [Hfields Hbuilt].
  split; [exact Hfields|].
  apply (Hbuilt Query). vm_compute. reflexivity.
Defined.

(** [@Field(ID) id] on [Character], from the empty registry. *)
Lemma X3_witness :
  thunks_in_place Registry_empty ∧
  thunks_in_place (after (Field ID FieldConfig_empty Character "id") Registry_empty).
Proof.
  split; [apply thunks_in_place_empty|].
  destruct (X3_thunks_stay_in_place Registry_empty thunks_in_place_empty) as (Hfield & _).
  apply (Hfield ID FieldConfig_empty Character "id"
           (Field ID FieldConfig_empty Character "id" Registry_empty).1).
  unfold after. apply surjective_pairing.
Defined.

(** [friends], which [Human] inherits from [Character]. *)
Lemma X4_witness :
  thunks_in_place registry_human ∧
  ObjectType_fields registry_human human_opts Human !! "friends" =
    Some (thunk Demo.String FieldConfig_empty Character "friends") ∧
  ∀ r' cfg,
    runField r' (thunk Demo.String FieldConfig_empty Character "friends") = inr cfg →
    ∀ root args context info,
      f_resolve cfg root args context info = VResult "friends" root [args; context; info].
Proof.
  assert (Hk : ObjectType_fields registry_human human_opts Human !! "friends" =
               Some (thunk Demo.String FieldConfig_empty Character "friends")).
  { vm_compute. reflexivity. }
  split; [exact registry_human_in_place|]. split; [exact Hk|].
  destruct (X4_object_type_field_origin human_opts Human registry_human "friends" _
              registry_human_in_place Hk) as (c & Htarget & _ & _ & _ & Hmount).
  simpl in Htarget. subst c.
  intros r' cfg Hrun root args context info.
  destruct (Hmount r' cfg Hrun) as (-> & _). reflexivity.
Defined.

(** [@Field(String) homePlanet] on [Human]. *)
Lemma X5_witness :
  Field Demo.String FieldConfig_empty Human "homePlanet" registry_character =
    (inr tt, after (Field Demo.String FieldConfig_empty Human "homePlanet")
               registry_character) ∧
  ObjectType_fields
    (after (Field Demo.String FieldConfig_empty Human "homePlanet") registry_character)
    human_opts Human !! "homePlanet" =
    Some (thunk Demo.String FieldConfig_empty Human "homePlanet").
Proof.
  assert (Hrun : Field Demo.String FieldConfig_empty Human "homePlanet" registry_character =
                 (inr tt, after (Field Demo.String FieldConfig_empty Human "homePlanet")
                            registry_character)).
  { vm_compute. reflexivity. }
  split; [exact Hrun|].
  destruct (X5_decorated_field_reaches_the_type _ _ _ _ _ _ Hrun) as (_ & Hobject & _).
  apply Hobject.
Defined.

(** [homePlanet] as a field and as an input field of [Human]. *)
Lemma X6_witness :
  getFields registry_character (AClass Human) !! "homePlanet" = None ∧
  getInputFields registry_character (AClass Human) !! "homePlanet" = None ∧
  in_Object_prototype "homePlanet" = false ∧
  ∃ r1 r2,
    Field Demo.String FieldConfig_empty Human "homePlanet" registry_character =
      (inr tt, r1) ∧
    InputField Demo.String
      {| ifc_defaultValue := None; ifc_description := None;
         ifc_deprecationReason := None |} Human "homePlanet" r1 = (inr tt, r2) ∧
    is_Some (getFields r2 (AClass Human) !! "homePlanet") ∧
    is_Some (getInputFields r2 (AClass Human) !! "homePlanet").
Proof.
  assert (Hfield : getFields registry_character (AClass Human) !! "homePlanet" = None).
  { vm_compute. reflexivity. }
  assert (Hinput : getInputFields registry_character (AClass Human) !! "homePlanet" = None).
  { vm_compute. reflexivity. }
  split; [exact Hfield|]. split; [exact Hinput|]. split; [reflexivity|].
  destruct (X6_fields_and_input_fields_apart Human "homePlanet" registry_character)
    as (_ & _ & Hboth & _).
  exact (Hboth _ _ _ _ Hfield Hinput eq_refl).
Defined.

(** The members [id] and [name] on [Droid]. *)
Lemma X7_witness :
  NoDup droid_members.*1 ∧
  (∀ k, k ∈ droid_members.*1 → getFields Registry_empty (AClass Droid) !! k = None) ∧
  (∀ k, k ∈ droid_members.*1 → in_Object_prototype k = false) ∧
  ∃ r', Field_all Droid droid_members Registry_empty = (inr tt, r') ∧
        getFields r' (AClass Droid) !! "name" =
          Some (thunk Demo.String FieldConfig_empty Droid "name").
Proof.
  assert (Hnodup : NoDup droid_members.*1).
  { apply (bool_decide_unpack _). vm_compute. reflexivity. }
  assert (Hfresh : ∀ k, k ∈ droid_members.*1 →
                        getFields Registry_empty (AClass Droid) !! k = None).
  { intros k _. vm_compute. reflexivity. }
  assert (Hown : ∀ k, k ∈ droid_members.*1 → in_Object_prototype k = false).
  { intros k Hk. apply elem_of_cons in Hk as [->|Hk]; [reflexivity|].
    apply list_elem_of_singleton in Hk as ->. reflexivity. }
  split; [exact Hnodup|]. split; [exact Hfresh|]. split; [exact Hown|].
  destruct (X7_field_decorators_of_a_class Droid droid_members Registry_empty)
    as [Hiff Hresult].
  destruct (proj2 Hiff (conj Hnodup (conj Hfresh Hown))) as [r' Hrun].
  exists r'. split; [exact Hrun|].
  destruct (Hresult r' Hrun) as (Hin & _).
  apply (Hin "name" Demo.String FieldConfig_empty). right. left.
Defined.

(** [id] decorated twice on [Droid], [name] after it. *)
Lemma X8_witness :
  ∃ r1,
    Field_all Droid [("id", (ID, FieldConfig_empty))] Registry_empty = (inr tt, r1) ∧
    Field_all Droid
      ([("id", (ID, FieldConfig_empty))] ++
       ("id", (Demo.String, FieldConfig_empty)) ::
       [("name", (Demo.String, FieldConfig_empty))]) Registry_empty =
      (inl "Field id is already defined in class Droid.", r1) ∧
    is_Some (getFields r1 (AClass Droid) !! "id").
Proof.
  destruct (X8_duplicate_member_keeps_earlier_fields Droid
              [("id", (ID, FieldConfig_empty))]
              [("name", (Demo.String, FieldConfig_empty))]
              "id" Demo.String FieldConfig_empty Registry_empty)
    as (r1 & Hrun & Hdup).
  - apply (bool_decide_unpack _). vm_compute. reflexivity.
  - intros k _. vm_compute. reflexivity.
  - intros k Hk. apply list_elem_of_singleton in Hk as ->. reflexivity.
  - left. left.
  - exists r1. split; [exact Hrun|]. split; [exact Hdup|].
    vm_compute in Hrun. injection Hrun as <-. eexists. vm_compute. reflexivity.
Defined.

(** [@Field(ID, {description: "Another one"}) id] on [Character]. *)
Lemma X9_witness :
  runField registry_review
    (thunk ID {| fc_args := None; fc_description := Some "Another one";
                 fc_deprecationReason := None |} Character "id") =
    runField registry_review (thunk ID FieldConfig_empty Character "id") ∧
  ∃ cfg,
    runField registry_review (thunk ID FieldConfig_empty Character "id") = inr cfg ∧
    f_description cfg = Some "The id of the character." ∧
    f_deprecationReason cfg = Some "This is no longer used".
Proof.
  destruct (X9_field_config_description_is_ignored registry_review ID FieldConfig_empty
              Character "id") as [Hsame Hmeta].
  split; [exact (Hsame (Some "Another one") None)|].
  assert (Hrun : ∃ cfg,
            runField registry_review (thunk ID FieldConfig_empty Character "id") = inr cfg).
  { eexists. vm_compute. reflexivity. }
  destruct Hrun as [cfg Hrun]. exists cfg. split; [exact Hrun|].
  destruct (Hmeta cfg Hrun) as (_ & _ & Hd & Hr). split; [exact Hd | exact Hr].
Defined.

(** [@Field(Character, {args: {episode: Episode}}) hero] on [Query]. *)
Lemma X10_witness :
  ∃ cfg,
    runField registry_review (thunk (AClass Character) hero_config Query "hero") = inr cfg ∧
    is_Some (f_args cfg !! "episode") ∧
    f_args cfg !! "id" = None ∧
    ∃ c, mountArgument registry_review "episode" (AClass Episode) = inr c ∧
         f_args cfg !! "episode" = Some c ∧
         arg_defaultValue c = None ∧ isInputType (arg_type c) = true.
Proof.
  assert (Hrun : ∃ cfg,
            runField registry_review (thunk (AClass Character) hero_config Query "hero") =
              inr cfg).
  { eexists. vm_compute. reflexivity. }
  destruct Hrun as [cfg Hrun]. exists cfg. split; [exact Hrun|].
  destruct (X10_mounted_arguments registry_review _ cfg Hrun) as (Hkeys & Hentry & Hall).
  split; [apply Hkeys; left|]. split.
  - destruct (f_args cfg !! "id") as [c|] eqn:Hid; [|reflexivity].
    exfalso. assert (Hin : "id" ∈ ["episode"]) by (apply Hkeys; eexists; exact Hid).
    apply list_elem_of_singleton in Hin. discriminate Hin.
  - destruct (Hentry (NoDup_singleton _) "episode" (AClass Episode)) as (c & Hc & Hk);
      [left|].
    exists c. split; [exact Hc|]. split; [exact Hk|]. exact (Hall _ _ Hk).
Defined.

(** [args: {id: String, of: undefined}], and [{description: "d"}] for an
    argument. *)
Lemma X11_witness :
  runField registry_review
    (thunk Demo.String
       {| fc_args := Some [("id", Demo.String); ("of", AUndefined)];
          fc_description := None; fc_deprecationReason := None |} Character "name") =
    inl "Cannot read property 'type' of undefined" ∧
  mountArgument registry_review "id" (Argument AUndefined (Some "d") None) =
    inl "The target have no GraphQL type associated to it.".
Proof.
  destruct (X11_arguments_that_are_not_types registry_review) as [Hundefined Hrecord].
  split.
  - refine (Hundefined _ (TScalar "String") [("id", Demo.String)] "of" [] _ _ _ _).
    + vm_compute. reflexivity.
    + reflexivity.
    + reflexivity.
    + constructor; [|constructor]. split; [discriminate|].
      exists (TScalar "String"). split; vm_compute; reflexivity.
  - apply (Hrecord "id" (Some "d") None). reflexivity.
Defined.

(** [@InputField(String, {defaultValue: 0, description: "Stars"}) stars] *)
Lemma X12_witness :
  ∃ cfg,
    runInputField registry_review stars_thunk = inr cfg ∧
    if_type cfg = TScalar "String" ∧
    if_description cfg = Some "Stars" ∧
    if_defaultValue cfg = VUndefined.
Proof.
  assert (Hrun : ∃ cfg, runInputField registry_review stars_thunk = inr cfg).
  { eexists. vm_compute. reflexivity. }
  destruct Hrun as [cfg Hrun]. exists cfg. split; [exact Hrun|].
  destruct (X12_mounted_input_field registry_review stars_thunk cfg Hrun)
    as (Htype & _ & [Hdescription _] & _ & _ & Hfalsy & _).
  split; [|split].
  - assert (Heq : inr (TScalar "String") = (inr (if_type cfg) : Result type)).
    { rewrite <- Htype. vm_compute. reflexivity. }
    injection Heq as Heq. symmetry. exact Heq.
  - apply Hdescription; [reflexivity | discriminate].
  - rewrite (Hfalsy (VNumber 0)); reflexivity.
Defined.

(** [ObjectType({name: "Person", description: '', ...})] on [Human]. *)
Lemma X13_witness :
  ∃ cfg type,
    GraphQLObjectType cfg = inr type ∧
    reg_types (after (ObjectType person_opts Human) registry_human) !! Human = Some type ∧
    ot_name cfg = "Person" ∧
    ot_description cfg = None.
Proof.
  destruct (X13_names_and_descriptions Human registry_human) as (Hobject & _).
  destruct (Hobject person_opts Human (after (ObjectType person_opts Human) registry_human))
    as (cfg & type & Hnew & Hget & [Hname _] & [_ Hdescription]).
  { vm_compute. reflexivity. }
  exists cfg, type. split; [exact Hnew|]. split; [exact Hget|]. split.
  - apply Hname; [reflexivity | discriminate].
  - rewrite Hdescription; [reflexivity | right; reflexivity].
Defined.

(** [InterfaceType({resolveType: root => Human})] on [Character], and the
    answer once [Human] is decorated. *)
Lemma X14_witness :
  ∃ cfg type,
    GraphQLInterfaceType cfg = inr type ∧
    after (InterfaceType character_opts Character) registry_character_fields =
      setGraphQLType Character type registry_character_fields ∧
    it_resolveType cfg (after (ObjectType human_opts Human) registry_human)
      VUndefined VUndefined VUndefined =
      inr (TObject "Human" [TInterface "Character" ["id"; "name"; "friends"]]
             ["id"; "name"; "friends"; "homePlanet"]) ∧
    it_resolveType cfg registry_character_fields VUndefined VUndefined VUndefined =
      inl "The target Human have no GraphQL type associated to it.".
Proof.
  destruct (X14_interface_type_resolves_late character_opts Character Character
              registry_character_fields
              (after (InterfaceType character_opts Character) registry_character_fields))
    as (cfg & type & Hnew & Hset & _ & Hgiven & _).
  { vm_compute. reflexivity. }
  exists cfg, type. split; [exact Hnew|]. split; [exact Hset|]. split.
  - rewrite (Hgiven _ eq_refl). vm_compute. reflexivity.
  - rewrite (Hgiven _ eq_refl). vm_compute. reflexivity.
Defined.

(** [List(Droid)] and [@Field(Droid)] before [Droid] is decorated;
    [List(Character)] after [Character] is. *)
Lemma X15_witness :
  Structures.List Registry_empty (AClass Droid) =
    inl "The target Droid have no GraphQL type associated to it." ∧
  (∃ r', Field (AClass Droid) FieldConfig_empty Query "droid" Registry_empty =
           (inr tt, r')) ∧
  Structures.List registry_review (AClass Character) =
    inr (TList (TInterface "Character" ["id"; "name"; "friends"])).
Proof.
  destruct (X15_structures_resolve_at_once Registry_empty (AClass Droid)) as [Hthrows _].
  destruct (X15_structures_resolve_at_once registry_review (AClass Character))
    as [_ Hreturns].
  destruct (Hthrows "The target Droid have no GraphQL type associated to it." eq_refl)
    as (Hlist & _ & Hfield).
  split; [exact Hlist|]. split; [apply Hfield; reflexivity|].
  destruct (Hreturns (TInterface "Character" ["id"; "name"; "friends"])) as [Hlist' _].
  { vm_compute. reflexivity. }
  exact Hlist'.
Defined.

(** The static properties of [Episode]. *)
Lemma X16_witness :
  NoDup (getOwnPropertyNames Episode) ∧
  getStaticProperties Episode = ["NEWHOPE"; "EMPIRE"; "JEDI"] ∧
  size (EnumType_values Episode) = 3 ∧
  EnumType_values Plain = ∅.
Proof.
  assert (Hnodup : NoDup (getOwnPropertyNames Episode)).
  { apply (bool_decide_unpack _). vm_compute. reflexivity. }
  destruct (X16_static_properties Episode) as (_ & _ & _ & _ & _ & Hsize).
  destruct (X16_static_properties Plain) as (_ & _ & _ & Hplain & Hvalues & _).
  split; [exact Hnodup|]. split; [vm_compute; reflexivity|].
  split; [rewrite (Hsize Hnodup); vm_compute; reflexivity|].
  apply Hvalues. exact Hplain.
Defined.

End CoverageStarWars.
